(** * Prayer countdown timer: a shallow embedding of [prayer-counter.py]

    The development follows the source file top to bottom: the values the
    program manipulates (parsed JSON, naive datetimes, exceptions), the
    effects it performs (console writes, sleeps, clock readings, audio
    playback) as a small state-and-exception monad, then the methods of
    [PrayerTimer] under their own names, and finally the properties of the
    countdown engine. *)

From Stdlib Require Import QArith Qcanon Ascii String.
From stdpp Require Import base option list numbers strings gmap.

Local Open Scope Z_scope.

(** ** Python values read from JSON *)

(** What [json.load] / [response.json()] hand back.  A JSON object is a
    Python [dict] keyed by strings; an integer literal is an [int], a literal
    with a fraction or an exponent is a [float], kept here by the rational
    it denotes (the decoder's [NaN] and infinities are left out). *)
#[warnings="-register-all"] Inductive json : Type :=
  | JNull
  | JBool (b : bool)
  | JInt (n : Z)
  | JFloat (q : Qc)
  | JStr (s : string)
  | JArr (l : list json)
  | JObj (m : gmap string json).

(** ** Exceptions *)

(** The subclasses of [Exception] that the modelled code can meet. *)
Inductive error : Type :=
  | KeyError (k : string)
  | TypeError
  | ValueError
  | AttributeError
  | OverflowError
  | RequestError (msg : string)
  | OSError (msg : string).

(** [except Exception] catches [Exception] only; [KeyboardInterrupt] and
    [SystemExit] derive from [BaseException] directly. *)
Inductive exn : Type :=
  | Exception (e : error)
  | KeyboardInterrupt
  | SystemExit (code : Z).

Inductive outcome (A : Type) : Type :=
  | Ret (a : A)
  | Raise (x : exn).
Arguments Ret {A} a.
Arguments Raise {A} x.

(** [v[k]] for a string key [k]. *)
Definition getitem (v : json) (k : string) : error + json :=
  match v with
  | JObj m => match m !! k with
              | Some x => inr x
              | None => inl (KeyError k)
              end
  | _ => inl TypeError
  end.

(** [v == n] for an integer constant [n].  Python compares numbers by value
    across [int], [float] and [bool]. *)
Definition py_eq_int (v : json) (n : Z) : bool :=
  match v with
  | JInt k => bool_decide (k = n)
  | JFloat q => bool_decide (q = Qc_of_Z n)
  | JBool b => bool_decide ((if b then 1 else 0) = n)
  | _ => false
  end.

(** [v == s] for a string constant [s]. *)
Definition py_eq_str (v : json) (s : string) : bool :=
  match v with
  | JStr t => bool_decide (t = s)
  | _ => false
  end.

(** ** Naive datetimes *)

(** A [datetime] without time zone.  The calendar date (year, month, day) is
    kept by its proleptic Gregorian ordinal, [date.toordinal()], which orders
    dates exactly as the triple does. *)
Record datetime : Type := DateTime {
  ordinal : Z;
  hour : Z;
  minute : Z;
  second : Z;
  microsecond : Z
}.

(** The values a [datetime] can hold: a day from 0001-01-01 (ordinal 1) to
    9999-12-31 (ordinal 3652059, [date.max.toordinal()]) and a time of
    day. *)
Definition valid_datetime (d : datetime) : Prop :=
  1 ≤ ordinal d ≤ 3652059 ∧ 0 ≤ hour d < 24 ∧ 0 ≤ minute d < 60 ∧
  0 ≤ second d < 60 ∧ 0 ≤ microsecond d < 1000000.

Definition lex (c1 c2 : comparison) : comparison :=
  match c1 with
  | Eq => c2
  | _ => c1
  end.

(** Python compares datetimes field by field, most significant first. *)
Definition dt_cmp (a b : datetime) : comparison :=
  lex (ordinal a ?= ordinal b)
 (lex (hour a ?= hour b)
 (lex (minute a ?= minute b)
 (lex (second a ?= second b)
      (microsecond a ?= microsecond b)))).

(** [a > b] *)
Definition dt_gt (a b : datetime) : bool :=
  match dt_cmp a b with
  | Gt => true
  | _ => false
  end.

(** [d.replace(year=src.year, month=src.month, day=src.day)] *)
Definition replace_date (d src : datetime) : datetime :=
  DateTime (ordinal src) (hour d) (minute d) (second d) (microsecond d).

(** [d + timedelta(days=n)]: the sum has to be a day a [datetime] can hold,
    between ordinal 1 and ordinal 3652059, or the addition raises
    [OverflowError]. *)
Definition add_days (d : datetime) (n : Z) : error + datetime :=
  if bool_decide (1 ≤ ordinal d + n ≤ 3652059) then
    inr (DateTime (ordinal d + n) (hour d) (minute d) (second d) (microsecond d))
  else inl OverflowError.

(** [a - b], a [timedelta], kept as its total number of microseconds:
    [timedelta(days1 - days2, secs1 - secs2, us1 - us2)] with
    [secs = second + minute * 60 + hour * 3600]. *)
Definition dt_sub (a b : datetime) : Z :=
  ((ordinal a - ordinal b) * 86400
   + ((second a + minute a * 60 + hour a * 3600)
      - (second b + minute b * 60 + hour b * 3600))) * 1000000
  + (microsecond a - microsecond b).

(** [a / b] rounded to the nearest integer, a half to the even neighbour;
    [0 ≤ a] and [0 < b]. *)
Definition round_half_even (a b : Z) : Z :=
  let q := a `div` b in
  let r := a `mod` b in
  if 2 * r <? b then q
  else if b <? 2 * r then q + 1
  else if Z.even q then q else q + 1.

(** The exponent [e] with [2^e ≤ n / d < 2^(e+1)], for positive [n] and
    [d]. *)
Definition binade (n d : Z) : Z :=
  let e0 := Z.log2 n - Z.log2 d in
  if n * 2 ^ Z.max 0 (- e0) <? d * 2 ^ Z.max 0 e0 then e0 - 1 else e0.

(** [int(n / d)] for two [int]s with [0 < d].  The true quotient [n / d] is
    a [float]: the double nearest to the exact quotient, that is the
    quotient rounded to 53 significant bits, a half to the even neighbour;
    with [s = 52 - e] for the exponent [e] of the quotient, the double is
    [m * 2^(-s)] for the integer [m] nearest to [|n| * 2^s / d].  [int]
    then truncates toward zero.  (A quotient beyond the range of a double
    raises instead; no difference of two datetimes comes near.) *)
Definition int_true_div (n d : Z) : Z :=
  if n =? 0 then 0
  else
    let a := Z.abs n in
    let s := 52 - binade a d in
    let v :=
      if 0 <=? s then round_half_even (a * 2 ^ s) d `div` 2 ^ s
      else round_half_even a (d * 2 ^ (- s)) * 2 ^ (- s) in
    Z.sgn n * v.

(** [int(delta.total_seconds())]: [total_seconds] is the microseconds of
    the [timedelta] divided by [10**6], a [float]. *)
Definition int_total_seconds (delta : Z) : Z := int_true_div delta 1000000.

(** Microseconds since the start of ordinal day 0; used in statements only. *)
Definition to_us (d : datetime) : Z :=
  (ordinal d * 86400 + hour d * 3600 + minute d * 60 + second d) * 1000000
  + microsecond d.

(** ** [datetime.strptime(s, '%H:%M')] *)

Definition digit (c : ascii) : option Z :=
  let n := Z.of_N (N_of_ascii c) in
  if (48 <=? n) && (n <=? 57) then Some (n - 48) else None.

(** The directive [%H] is the regular expression [2[0-3]|[0-1]\d|\d]; the
    alternatives that match a prefix of [s], in that order, each with the
    rest of the input. *)
Definition hour_alts (s : string) : list (Z * string) :=
  match s with
  | String a (String b rest) =>
      match digit a, digit b with
      | Some x, Some y =>
          (if bool_decide (x = 2 ∧ y ≤ 3) then [(20 + y, rest)] else [])
          ++ (if bool_decide (x ≤ 1) then [(10 * x + y, rest)] else [])
          ++ [(x, String b rest)]
      | Some x, None => [(x, String b rest)]
      | None, _ => []
      end
  | String a EmptyString =>
      match digit a with
      | Some x => [(x, EmptyString)]
      | None => []
      end
  | EmptyString => []
  end.

(** The directive [%M] is [[0-5]\d|\d]. *)
Definition minute_alts (s : string) : list (Z * string) :=
  match s with
  | String a (String b rest) =>
      match digit a, digit b with
      | Some x, Some y =>
          (if bool_decide (x ≤ 5) then [(10 * x + y, rest)] else [])
          ++ [(x, String b rest)]
      | Some x, None => [(x, String b rest)]
      | None, _ => []
      end
  | String a EmptyString =>
      match digit a with
      | Some x => [(x, EmptyString)]
      | None => []
      end
  | EmptyString => []
  end.

Definition after_colon (alt : Z * string) : option (Z * string) :=
  match snd alt with
  | String ":"%char rest => Some (fst alt, rest)
  | _ => None
  end.

(** The compiled pattern is [(%H):(%M)], matched at the start of the input
    with backtracking over the alternatives of [%H]; a match that leaves
    input unread raises ("unconverted data remains"), as does no match.
    The result is on 1900-01-01, ordinal 693596.  Strings are read as
    ASCII text, where [\d] is one of [0] to [9]; what [\d] makes of the
    digits of other scripts is not modelled, and statements about a string
    that does not parse are made for ASCII strings. *)
Definition strptime_HM (s : string) : error + datetime :=
  match omap after_colon (hour_alts s) with
  | (h, rest) :: _ =>
      match minute_alts rest with
      | (mi, EmptyString) :: _ => inr (DateTime 693596 h mi 0 0)
      | _ => inl ValueError
      end
  | [] => inl ValueError
  end.

(** [strptime] insists on a [str] argument. *)
Definition strptime (v : json) : error + datetime :=
  match v with
  | JStr s => strptime_HM s
  | _ => inl TypeError
  end.

(** ** The timer object and its environment *)

(** The attributes of a [PrayerTimer] instance.  [config] is whatever
    [json.load] read (or [create_default_config] built); [prayer_times] is
    whatever [fetch_prayer_times] returned, a [dict] or [None]. *)
Record PrayerTimer : Type := Timer {
  config : json;
  prayer_times : json;
  announced_intervals : gset Z;
  current_prayer_announced : bool
}.

Definition PRAYERS : list string := ["Fajr"; "Dhuhr"; "Asr"; "Maghrib"; "Isha"].

Definition ANNOUNCEMENT_INTERVALS : list Z := [180; 120; 90; 60; 45; 30; 20].

(** The result of [format_time_remaining], before it is rendered. *)
Inductive time_str : Type :=
  | FmtHMS (hours minutes seconds : Z)
  | FmtMS (minutes seconds : Z)
  | FmtS (seconds : Z).

(** The announcement texts built in [run]. *)
Inductive message : Type :=
  | HoursAndMinutesUntil (hours_msg mins_msg : Z) (prayer_name : string)
  | HoursUntil (hours_msg : Z) (prayer_name : string)
  | MinutesUntil (total_minutes : Z) (prayer_name : string).

(** One constructor per distinct [print] of the modelled methods. *)
Inductive line : Type :=
  | LocationFailed (e : error)
  | UsingDefaultLocation
  | FetchFailed (e : error)
  | Rule
  | RuleAfterBlank
  | RuleThenBlank
  | TableTitle (today : datetime)
  | TableLocation (city country : json)
  | TableRow (prayer : string) (time : json)
  | Title
  | TimerStarted
  | NoUpcoming
  | Countdown (prayer_name : string) (prayer_time : datetime) (t : time_str)
  | BannerTop
  | ItsTime (prayer_name : string)
  | Announcement (msg : message)
  | Farewell
  | LoopError (e : error).

(** The calls that reach outside the process.  [PlayAzan] stands for the
    download, file and mixer calls of [play_azan] taken together. *)
Inductive call : Type :=
  | Print (l : line)
  | Sleep (secs : Z)
  | PlayAzan.

(** What can go wrong in such a call: the user's interrupt arrives while it
    runs, or the call itself fails.  Interrupts are taken to arrive during
    outside calls, where the process spends its time. *)
Inductive fault : Type :=
  | Interrupted
  | Failed (e : error).

Definition exn_of_fault (f : fault) : exn :=
  match f with
  | Interrupted => KeyboardInterrupt
  | Failed e => Exception e
  end.

(** The running process: the timer object, the wall clock as the sequence of
    values successive [datetime.now()] calls return, the environment's
    decision for each outside call (by its position and what it is), and the
    outside calls completed so far, oldest first. *)
Record machine : Type := Machine {
  self : PrayerTimer;
  clock : nat → datetime;
  ticks : nat;
  faults : nat → call → option fault;
  calls : nat;
  trace : list call
}.

Definition M (A : Type) : Type := machine → outcome A * machine.

Definition ret {A} (a : A) : M A := λ w, (Ret a, w).

Definition raise {A} (x : exn) : M A := λ w, (Raise x, w).

Definition bind {A B} (m : M A) (f : A → M B) : M B :=
  λ w, match m w with
       | (Ret a, w') => f a w'
       | (Raise x, w') => (Raise x, w')
       end.

Declare Scope py_scope.
Delimit Scope py_scope with py.
Notation "x ← y ; z" := (bind y (λ x, z)) : py_scope.
Notation "' x ← y ; z" := (bind y (λ x, z)) : py_scope.
Notation "y ;; z" := (bind y (λ _, z)) : py_scope.
Local Open Scope py_scope.

(** An operation that raises an [Exception] subclass or returns. *)
Definition lift {A} (r : error + A) : M A :=
  match r with
  | inr a => ret a
  | inl e => raise (Exception e)
  end.

Definition get_self : M PrayerTimer := λ w, (Ret (self w), w).

Definition put_self (t : PrayerTimer) : M unit :=
  λ w, (Ret (), Machine t (clock w) (ticks w) (faults w) (calls w) (trace w)).

(** A method that only reads and writes attributes of [self]. *)
Definition method {A} (f : PrayerTimer → A * PrayerTimer) : M A :=
  λ w, let '(a, t) := f (self w) in
       (Ret a, Machine t (clock w) (ticks w) (faults w) (calls w) (trace w)).

(** [datetime.now()] *)
Definition datetime_now : M datetime :=
  λ w, (Ret (clock w (ticks w)),
        Machine (self w) (clock w) (Datatypes.S (ticks w)) (faults w) (calls w) (trace w)).

(** An outside call: it completes and is recorded, or raises. *)
Definition io (c : call) : M unit :=
  λ w, match faults w (calls w) c with
       | Some f =>
           (Raise (exn_of_fault f),
            Machine (self w) (clock w) (ticks w) (faults w) (Datatypes.S (calls w)) (trace w))
       | None =>
           (Ret (),
            Machine (self w) (clock w) (ticks w) (faults w) (Datatypes.S (calls w))
                    (trace w ++ [c]))
       end.

Definition print (l : line) : M unit := io (Print l).
Definition sleep (secs : Z) : M unit := io (Sleep secs).

(** [try: body  except Exception as e: handler e] *)
Definition try_except {A} (body : M A) (handler : error → M A) : M A :=
  λ w, match body w with
       | (Raise (Exception e), w') => handler e w'
       | r => r
       end.

(** ** Location detection and schedule fetch *)

(** What [requests.get] followed by [response.json()] comes to: the request
    raises (connection failure, timeout), the body is not JSON, or a value is
    decoded. *)
Inductive http_outcome : Type :=
  | RequestRaised (e : error)
  | BodyNotJson
  | BodyJson (data : json).

Definition request_json (r : http_outcome) : M json :=
  match r with
  | RequestRaised e => raise (Exception e)
  | BodyNotJson => raise (Exception ValueError)
  | BodyJson data => ret data
  end.

(** The dictionary [detect_location] returns. *)
Record location : Type := Location {
  latitude : json;
  longitude : json;
  city : json;
  country : json
}.

Definition mecca : location :=
  Location (JFloat (Q2Qc 21.4225%Q)) (JFloat (Q2Qc 39.8262%Q))
           (JStr "Mecca") (JStr "Saudi Arabia").

(** The body of the [try] in [detect_location], lines 75-84: [Some] is the
    [return] inside the [if], [None] is control leaving the [try]; [r] is
    the answer of the geolocation service (timeout 5 s). *)
Definition locate (r : http_outcome) : M (option location) :=
  data ← request_json r;
  status ← lift (getitem data "status");
  if py_eq_str status "success" then
    lat ← lift (getitem data "lat");
    lon ← lift (getitem data "lon");
    cty ← lift (getitem data "city");
    ctr ← lift (getitem data "country");
    ret (Some (Location lat lon cty ctr))
  else ret None.

(** [detect_location], lines 72-95. *)
Definition detect_location (r : http_outcome) : M location :=
  found ← try_except (locate r) (λ e, print (LocationFailed e);; ret None);
  match found with
  | Some loc => ret loc
  | None => print UsingDefaultLocation;; ret mecca
  end.

(** The comprehension [{prayer: timings[prayer] for prayer in prayers}]. *)
Fixpoint pick_timings (timings : json) (prayers : list string)
    (acc : gmap string json) : error + gmap string json :=
  match prayers with
  | [] => inr acc
  | prayer :: rest =>
      match getitem timings prayer with
      | inr v => pick_timings timings rest (<[prayer := v]> acc)
      | inl e => inl e
      end
  end.

(** [fetch_prayer_times], lines 103-126; [r] is the answer of the
    prayer-times service.  When the [if] is not taken, control leaves the
    [try] and the function ends without a [return]: the caller gets
    [None]. *)
Definition fetch_prayer_times (r : http_outcome) : M json :=
  cfg ← (t ← get_self; ret (config t));
  lat ← lift (getitem cfg "latitude");
  lon ← lift (getitem cfg "longitude");
  meth ← lift (getitem cfg "method");
  today ← datetime_now;
  try_except
    (data ← request_json r;
     code ← lift (getitem data "code");
     if py_eq_int code 200 then
       d ← lift (getitem data "data");
       timings ← lift (getitem d "timings");
       sched ← lift (pick_timings timings PRAYERS ∅);
       ret (JObj sched)
     else ret JNull)
    (λ e, print (FetchFailed e);; raise (SystemExit 1)).

(** ** The countdown engine *)

(** The [for] loop of [display_prayer_times], lines 136-138. *)
Fixpoint display_rows (prayers : list string) : M unit :=
  match prayers with
  | [] => ret ()
  | prayer :: rest =>
      t ← get_self;
      time ← lift (getitem (prayer_times t) prayer);
      print (TableRow prayer time);;
      display_rows rest
  end.

(** [display_prayer_times], lines 128-140. *)
Definition display_prayer_times : M unit :=
  today ← datetime_now;
  print RuleAfterBlank;;
  print (TableTitle today);;
  t ← get_self;
  cty ← lift (getitem (config t) "city");
  ctr ← lift (getitem (config t) "country");
  print (TableLocation cty ctr);;
  print Rule;;
  display_rows PRAYERS;;
  print RuleThenBlank.

(** The [for] loop of [get_next_prayer], lines 146-153: [inr (Some _)] is
    the [return] from inside the loop, [inr None] is the loop running to its
    end. *)
Fixpoint scan_prayers (times : json) (now : datetime) (prayers : list string)
    : error + option (string * datetime) :=
  match prayers with
  | [] => inr None
  | prayer :: rest =>
      match getitem times prayer with
      | inl e => inl e
      | inr prayer_time_str =>
          match strptime prayer_time_str with
          | inl e => inl e
          | inr parsed =>
              let prayer_time := replace_date parsed now in
              if dt_gt prayer_time now then inr (Some (prayer, prayer_time))
              else scan_prayers times now rest
          end
      end
  end.

(** [get_next_prayer] once [now] has been read, lines 146-160. *)
Definition next_prayer_at (times : json) (now : datetime)
    : error + (option string * option datetime) :=
  match scan_prayers times now PRAYERS with
  | inl e => inl e
  | inr (Some (prayer, prayer_time)) => inr (Some prayer, Some prayer_time)
  | inr None =>
      match add_days now 1 with
      | inl e => inl e
      | inr tomorrow =>
          match getitem times "Fajr" with
          | inl e => inl e
          | inr fajr_str =>
              match strptime fajr_str with
              | inl e => inl e
              | inr parsed =>
                  inr (Some "Fajr", Some (replace_date parsed tomorrow))
              end
          end
      end
  end.

(** [get_next_prayer], lines 142-160. *)
Definition get_next_prayer : M (option string * option datetime) :=
  now ← datetime_now;
  t ← get_self;
  lift (next_prayer_at (prayer_times t) now).

(** The arithmetic of [get_time_remaining], lines 165-172; [//] and [%] are
    Python's floor division and modulo. *)
Definition time_remaining (target_time now : datetime) : Z * Z * Z :=
  let delta := dt_sub target_time now in
  let total_seconds := int_total_seconds delta in
  let hours := total_seconds `div` 3600 in
  let minutes := (total_seconds `mod` 3600) `div` 60 in
  let seconds := total_seconds `mod` 60 in
  (hours, minutes, seconds).

(** [get_time_remaining], lines 162-172; subtracting from [None] is a
    [TypeError]. *)
Definition get_time_remaining (target_time : option datetime) : M (Z * Z * Z) :=
  now ← datetime_now;
  match target_time with
  | Some t => ret (time_remaining t now)
  | None => raise (Exception TypeError)
  end.

(** [should_announce], lines 174-188, on the attributes of [self]. *)
Definition should_announce (minutes_remaining : Z) (t : PrayerTimer)
    : bool * PrayerTimer :=
  let fire :=
    (true, Timer (config t) (prayer_times t)
                 ({[minutes_remaining]} ∪ announced_intervals t)
                 (current_prayer_announced t)) in
  if bool_decide (minutes_remaining ∈ ANNOUNCEMENT_INTERVALS) then
    if bool_decide (minutes_remaining ∉ announced_intervals t) then fire
    else (false, t)
  else if bool_decide (1 ≤ minutes_remaining < 20) then
    if bool_decide (minutes_remaining ∉ announced_intervals t) then fire
    else (false, t)
  else (false, t).

(** [text_to_speech], lines 190-194. *)
Definition text_to_speech (text : message) : M unit :=
  print (Announcement text).

(** [play_azan], lines 196-226: the two configuration reads, then the
    download and playback. *)
Definition play_azan : M unit :=
  t ← get_self;
  azan_file ← lift (getitem (config t) "azan_file");
  use_default ← lift (getitem (config t) "use_default_azan");
  io PlayAzan.

(** [format_time_remaining], lines 228-235. *)
Definition format_time_remaining (hours minutes seconds : Z) : time_str :=
  if bool_decide (hours > 0) then FmtHMS hours minutes seconds
  else if bool_decide (minutes > 0) then FmtMS minutes seconds
  else FmtS seconds.

(** The two assignments at a deadline, lines 274-275. *)
Definition mark_announced (t : PrayerTimer) : unit * PrayerTimer :=
  ((), Timer (config t) (prayer_times t) ∅ true).

(** [self.current_prayer_announced = False], line 281. *)
Definition clear_announced_flag (t : PrayerTimer) : unit * PrayerTimer :=
  ((), Timer (config t) (prayer_times t) (announced_intervals t) false).

(** The text of an announcement, lines 285-293. *)
Definition announcement (total_minutes : Z) (prayer_name : string) : message :=
  if bool_decide (total_minutes >= 60) then
    let hours_msg := total_minutes `div` 60 in
    let mins_msg := total_minutes `mod` 60 in
    if bool_decide (mins_msg > 0) then
      HoursAndMinutesUntil hours_msg mins_msg prayer_name
    else HoursUntil hours_msg prayer_name
  else MinutesUntil total_minutes prayer_name.

(** Lines 264-297 of the loop body, with the next prayer and the remaining
    time in hand. *)
Definition countdown_step (prayer_name : string) (hours minutes seconds : Z)
    : M unit :=
  let total_minutes := hours * 60 + minutes in
  let announce_and_wait :=
    (fires ← method (should_announce total_minutes);
     (if fires : bool
      then text_to_speech (announcement total_minutes prayer_name)
      else ret ());;
     sleep 1) in
  if bool_decide (total_minutes = 0) && bool_decide (seconds = 0) then
    t ← get_self;
    if negb (current_prayer_announced t) then
      print BannerTop;;
      print (ItsTime prayer_name);;
      print RuleThenBlank;;
      play_azan;;
      display_prayer_times;;
      method mark_announced;;
      sleep 60
    else announce_and_wait
  else
    method clear_announced_flag;;
    announce_and_wait.

(** The body of the [try] in [run], lines 250-297.  [if not prayer_name]
    holds for [None] and for the empty string; [prayer_time.strftime] on
    [None] is an [AttributeError]. *)
Definition iteration : M unit :=
  ' (prayer_name, prayer_time) ← get_next_prayer;
  match prayer_name with
  | Some name =>
      if bool_decide (name = "") then print NoUpcoming;; sleep 60
      else
        ' (hours, minutes, seconds) ← get_time_remaining prayer_time;
        at_time ← lift (from_option inr (inl AttributeError) prayer_time);
        print (Countdown name at_time
                 (format_time_remaining hours minutes seconds));;
        countdown_step name hours minutes seconds
  | None => print NoUpcoming;; sleep 60
  end.

Inductive control : Type := Continue | Break.

(** One turn of the [while True], lines 249-304, with its two handlers. *)
Definition run_iteration : M control :=
  λ w, match iteration w with
       | (Ret _, w') => (Ret Continue, w')
       | (Raise KeyboardInterrupt, w') => (print Farewell;; ret Break) w'
       | (Raise (Exception e), w') =>
           (print (LoopError e);; sleep 5;; ret Continue) w'
       | (Raise (SystemExit code), w') => (Raise (SystemExit code), w')
       end.

Inductive status : Type := Stopped | Running.

(** The [while True] loop for at most [fuel] turns: [Stopped] once [break]
    has been executed, [Running] when the turns are used up. *)
Fixpoint loop (fuel : nat) : M status :=
  match fuel with
  | O => ret Running
  | Datatypes.S n =>
      c ← run_iteration;
      match c with
      | Break => ret Stopped
      | Continue => loop n
      end
  end.

(** [run], lines 237-304. *)
Definition run (r : http_outcome) (fuel : nat) : M status :=
  print Title;;
  print Rule;;
  times ← fetch_prayer_times r;
  t ← get_self;
  put_self (Timer (config t) times (announced_intervals t)
                  (current_prayer_announced t));;
  display_prayer_times;;
  print TimerStarted;;
  loop fuel.

(** ** Announcement thresholds *)

(** The values that can ever be announced: the ladder, and every minute
    below twenty. *)
Definition eligible (m : Z) : Prop :=
  m ∈ ANNOUNCEMENT_INTERVALS ∨ 1 ≤ m < 20.

(** Successive calls [should_announce(m)] for [m] in [ms], with their
    answers in order. *)
Fixpoint announce_all (ms : list Z) (t : PrayerTimer) : list bool * PrayerTimer :=
  match ms with
  | [] => ([], t)
  | m :: rest =>
      let '(b, t1) := should_announce m t in
      let '(bs, t2) := announce_all rest t1 in
      (b :: bs, t2)
  end.

(** ** Schedules and environments used in the statements *)

(** The time of day a schedule gives for a prayer, when the entry is there
    and reads as [HH:MM]. *)
Definition time_of (times : json) (prayer : string) : option datetime :=
  match getitem times prayer with
  | inr v => match strptime v with
             | inr d => Some d
             | inl _ => None
             end
  | inl _ => None
  end.

(** A schedule of five prayer times. *)
Definition well_formed (times : json) : Prop :=
  ∀ prayer, prayer ∈ PRAYERS → is_Some (time_of times prayer).

(** A configuration with the entries the engine reads. *)
Definition config_ok (cfg : json) : Prop :=
  ∀ k, k ∈ ["city"; "country"; "azan_file"; "use_default_azan"] →
       ∃ v, getitem cfg k = inr v.

(** Every outside call completes. *)
Definition quiet (w : machine) : Prop :=
  ∀ k c, faults w k c = None.

(** The calls made by the two [except] clauses of [run] complete. *)
Definition handlers_complete (w : machine) : Prop :=
  ∀ k, faults w k (Print Farewell) = None ∧ faults w k (Sleep 5) = None ∧
       ∀ e, faults w k (Print (LoopError e)) = None.

(** The user never interrupts. *)
Definition uninterrupted (w : machine) : Prop :=
  ∀ k c, faults w k c ≠ Some Interrupted.

(** The lines of the schedule table. *)
Definition is_table_line (c : call) : bool :=
  match c with
  | Print RuleAfterBlank | Print (TableTitle _) | Print (TableLocation _ _)
  | Print Rule | Print (TableRow _ _) | Print RuleThenBlank => true
  | _ => false
  end.

(** The ways the geolocation lookup fails: the request raises (no network,
    timeout), the body is not JSON, the decoded value has no [status], the
    status is not ['success'], or one of the four fields is missing. *)
Inductive lookup_failure : http_outcome → Prop :=
  | request_raised e : lookup_failure (RequestRaised e)
  | body_not_json : lookup_failure BodyNotJson
  | no_status data e :
      getitem data "status" = inl e → lookup_failure (BodyJson data)
  | status_not_success data v :
      getitem data "status" = inr v → py_eq_str v "success" = false →
      lookup_failure (BodyJson data)
  | field_missing data k e :
      k ∈ ["lat"; "lon"; "city"; "country"] → getitem data k = inl e →
      lookup_failure (BodyJson data).

(** What a computation may do to the process: it leaves the clock and the
    environment's decisions as they are, only adds calls satisfying [P] to
    the trace, never raises [SystemExit], and raises [KeyboardInterrupt]
    only when the environment interrupts a call. *)
Definition safe {A} (P : call → Prop) (m : M A) : Prop :=
  ∀ w, let '(r, w') := m w in
       faults w' = faults w ∧ clock w' = clock w ∧
       (∃ evs, trace w' = trace w ++ evs ∧ Forall P evs) ∧
       match r with
       | Raise (SystemExit _) => False
       | Raise KeyboardInterrupt => ∃ k c, faults w k c = Some Interrupted
       | _ => True
       end.

(** A computation that returns [a] from [w], with the timer it leaves and
    the calls it makes. *)
Definition returns {A} (m : M A) (w : machine) (a : A) (t : PrayerTimer)
    (evs : list call) : Prop :=
  ∃ w', m w = (Ret a, w') ∧ self w' = t ∧ faults w' = faults w ∧
        trace w' = trace w ++ evs.

(** The schedule of the examples. *)
Definition example_times : json :=
  JObj (<["Fajr" := JStr "05:00"]> (<["Dhuhr" := JStr "12:30"]>
       (<["Asr" := JStr "16:00"]> (<["Maghrib" := JStr "19:00"]>
       (<["Isha" := JStr "20:30"]> ∅))))).

Definition example_config : json :=
  JObj (<["latitude" := JFloat (Q2Qc 21.4225%Q)]>
       (<["longitude" := JFloat (Q2Qc 39.8262%Q)]>
       (<["city" := JStr "Mecca"]> (<["country" := JStr "Saudi Arabia"]>
       (<["method" := JInt 2]> (<["azan_file" := JStr "azan.mp3"]>
       (<["use_default_azan" := JBool true]>
       (<["announcement_voice" := JBool true]> ∅)))))))).

(** The timer after [__init__] and the fetch, with some thresholds already
    announced. *)
Definition example_timer (times : json) (announced : gset Z) : PrayerTimer :=
  Timer example_config times announced false.

(** A process whose clock reads [first] and then [later], with environment
    [env]. *)
Definition example_machine (t : PrayerTimer) (first later : datetime)
    (env : nat → call → option fault) : machine :=
  Machine t (λ k, match k with O => first | _ => later end) 0 env 0 [].

Definition no_faults : nat → call → option fault := λ _ _, None.

(** A console that cannot be written to while the countdown is shown. *)
Definition broken_console : nat → call → option fault :=
  λ _ c, match c with
         | Print (Countdown _ _ _) => Some (Failed (OSError "Broken pipe"))
         | _ => None
         end.

(** The answer of the prayer-times service to a bad request. *)
Definition bad_request_reply : http_outcome :=
  BodyJson (JObj (<["code" := JInt 400]> (<["status" := JStr "Bad Request"]>
                 (<["data" := JStr "Invalid date or unsupported method"]> ∅)))).

(** ** Readings of what is shown and said *)

(** The remaining time a countdown text stands for: a field that is not
    shown reads as zero. *)
Definition shown_time (t : time_str) : Z * Z * Z :=
  match t with
  | FmtHMS hours minutes seconds => (hours, minutes, seconds)
  | FmtMS minutes seconds => (0, minutes, seconds)
  | FmtS seconds => (0, 0, seconds)
  end.

(** The number of minutes an announcement speaks of, and the prayer. *)
Definition spoken_minutes (msg : message) : Z * string :=
  match msg with
  | HoursAndMinutesUntil hours_msg mins_msg prayer_name =>
      (hours_msg * 60 + mins_msg, prayer_name)
  | HoursUntil hours_msg prayer_name => (hours_msg * 60, prayer_name)
  | MinutesUntil total_minutes prayer_name => (total_minutes, prayer_name)
  end.

(** The eligible values as a set: the ladder and the minutes 1 to 19. *)
Definition eligible_set : gset Z :=
  list_to_set (ANNOUNCEMENT_INTERVALS ++ seqZ 1 19).


(** What a computation leaves alone in the timer: the configuration and
    the schedule; and whatever it adds to the announced thresholds is
    eligible. *)
Definition keeps {A} (m : M A) : Prop :=
  ∀ w, let '(_, w') := m w in
       config (self w') = config (self w) ∧
       prayer_times (self w') = prayer_times (self w) ∧
       ∀ x, x ∈ announced_intervals (self w') →
            x ∈ announced_intervals (self w) ∨ eligible x.

(** A schedule with a bad entry and a missing one. *)
Definition patchy_times : json :=
  JObj (<["Fajr" := JStr "05:00"]> (<["Dhuhr" := JStr "noon"]>
       (<["Asr" := JStr "16:00"]> (<["Maghrib" := JStr "19:00"]> ∅)))).

(** Text of ASCII characters only. *)
Fixpoint ascii_only (s : string) : bool :=
  match s with
  | EmptyString => true
  | String c rest => (N_of_ascii c <? 128)%N && ascii_only rest
  end.

(** A value whose reading by [strptime] is modelled in full: anything that
    is not a string, and a string of ASCII characters. *)
Definition ascii_text (v : json) : Prop :=
  match v with
  | JStr s => ascii_only s = true
  | _ => True
  end.

(** A schedule whose times carry a zone suffix, which ['%H:%M'] does not
    read. *)
Definition zoned_times : json :=
  JObj (<["Fajr" := JStr "05:00 (EET)"]> (<["Dhuhr" := JStr "12:30 (EET)"]>
       (<["Asr" := JStr "16:00 (EET)"]> (<["Maghrib" := JStr "19:00 (EET)"]>
       (<["Isha" := JStr "20:30 (EET)"]> ∅))))).

(** The user presses Ctrl+C during the five-second pause that follows an
    error. *)
Definition interrupt_in_cooldown : nat → call → option fault :=
  λ _ c, match c with
         | Sleep secs => if bool_decide (secs = 5) then Some Interrupted else None
         | _ => None
         end.

(** The console fails while the error line is written. *)
Definition console_lost : nat → call → option fault :=
  λ _ c, match c with
         | Print (Countdown _ _ _) | Print (LoopError _) =>
             Some (Failed (OSError "Broken pipe"))
         | _ => None
         end.

(** A configuration with every entry the program reads after start-up. *)
Definition config_complete (cfg : json) : Prop :=
  ∀ k, k ∈ ["latitude"; "longitude"; "method"; "city"; "country";
            "azan_file"; "use_default_azan"] →
       ∃ v, getitem cfg k = inr v.

(** A reply of the prayer-times service with code 200 and the timings
    [timings]. *)
Definition good_reply (r : http_outcome) (timings : json) : Prop :=
  ∃ data code d,
    r = BodyJson data ∧ getitem data "code" = inr code ∧
    py_eq_int code 200 = true ∧ getitem data "data" = inr d ∧
    getitem d "timings" = inr timings.

(** The timings of the examples as the service sends them: the schedule of
    the examples and two more entries. *)
Definition example_timings : json :=
  JObj (<["Fajr" := JStr "05:00"]> (<["Sunrise" := JStr "06:20"]>
       (<["Dhuhr" := JStr "12:30"]> (<["Asr" := JStr "16:00"]>
       (<["Maghrib" := JStr "19:00"]> (<["Isha" := JStr "20:30"]>
       (<["Midnight" := JStr "23:45"]> ∅))))))).

Definition example_reply : http_outcome :=
  BodyJson (JObj (<["code" := JInt 200]> (<["status" := JStr "OK"]>
    (<["data" := JObj (<["timings" := example_timings]> ∅)]> ∅)))).

(** The ways the schedule fetch fails by an exception: the request raises,
    the body is not JSON, or a field is missing on the way to the five
    timings. *)
Definition fetch_fails (r : http_outcome) (e : error) : Prop :=
  r = RequestRaised e ∨ (r = BodyNotJson ∧ e = ValueError) ∨
  ∃ data, r = BodyJson data ∧
    (getitem data "code" = inl e ∨
     ∃ code, getitem data "code" = inr code ∧ py_eq_int code 200 = true ∧
       (getitem data "data" = inl e ∨
        ∃ d, getitem data "data" = inr d ∧
          (getitem d "timings" = inl e ∨
           ∃ timings, getitem d "timings" = inr timings ∧
                      pick_timings timings PRAYERS ∅ = inl e))).

(** A configuration saved without the azan entries. *)
Definition bare_config : json :=
  JObj (<["latitude" := JFloat (Q2Qc 21.4225%Q)]>
       (<["longitude" := JFloat (Q2Qc 39.8262%Q)]>
       (<["city" := JStr "Mecca"]> (<["country" := JStr "Saudi Arabia"]>
       (<["method" := JInt 2]> ∅))))).

(** * Properties *)

Section thresholds.
Implicit Types (m : Z) (t : PrayerTimer) (ms : list Z).

Lemma should_announce_fresh m t :
  eligible m → m ∉ announced_intervals t →
  should_announce m t =
    (true, Timer (config t) (prayer_times t)
                 ({[m]} ∪ announced_intervals t) (current_prayer_announced t)).
Proof.
  intros [Hl | Hr] Hn; unfold should_announce.
  - rewrite bool_decide_eq_true_2 by done.
    by rewrite bool_decide_eq_true_2.
  - destruct (bool_decide (m ∈ ANNOUNCEMENT_INTERVALS)).
    + by rewrite bool_decide_eq_true_2.
    + rewrite bool_decide_eq_true_2 by lia.
      by rewrite bool_decide_eq_true_2.
Qed.

Lemma should_announce_fired m t :
  m ∈ announced_intervals t → should_announce m t = (false, t).
Proof.
  intros Hin. unfold should_announce.
  rewrite (bool_decide_eq_false_2 (m ∉ announced_intervals t)) by tauto.
  by repeat case_bool_decide.
Qed.

Lemma should_announce_ineligible m t :
  ¬ eligible m → should_announce m t = (false, t).
Proof.
  intros Hn. unfold should_announce.
  rewrite bool_decide_eq_false_2 by (intros ?; apply Hn; by left).
  by rewrite bool_decide_eq_false_2 by (intros ?; apply Hn; by right).
Qed.

(** The set only grows, and by the argument at most. *)
Lemma should_announce_announced m t x :
  x ∈ announced_intervals (snd (should_announce m t)) ↔
  x ∈ announced_intervals t ∨ (x = m ∧ eligible m).
Proof.
  destruct (decide (eligible m)) as [He | He].
  - destruct (decide (m ∈ announced_intervals t)) as [Hin | Hin].
    + rewrite should_announce_fired by done. simpl.
      split; [by left | by intros [? | [-> _]]].
    + rewrite should_announce_fresh by done. simpl.
      rewrite elem_of_union, elem_of_singleton.
      split; [intros [-> | ?]; auto | intros [? | [-> _]]; auto].
  - rewrite should_announce_ineligible by done. simpl.
    split; [by left | by intros [? | [_ ?]]].
Qed.

Lemma announce_all_cons m ms t :
  announce_all (m :: ms) t =
    (fst (should_announce m t) :: fst (announce_all ms (snd (should_announce m t))),
     snd (announce_all ms (snd (should_announce m t)))).
Proof.
  simpl. destruct (should_announce m t) as [b t1]. simpl.
  by destruct (announce_all ms t1).
Qed.

(** The answer to the [i]-th call of a run, whatever was announced
    before the run. *)
Lemma announce_all_lookup ms : ∀ t i m,
  ms !! i = Some m → eligible m →
  (fst (announce_all ms t)) !! i =
    Some (bool_decide ((m ∉ announced_intervals t) ∧ (m ∉ take i ms))).
Proof.
  induction ms as [| a ms IH]; intros t i m Hi He; [done |].
  rewrite announce_all_cons. destruct i as [| i]; simpl in *.
  - injection Hi as ->. f_equal.
    destruct (decide (m ∈ announced_intervals t)) as [Hin | Hin].
    + rewrite should_announce_fired by done. simpl.
      symmetry. apply bool_decide_eq_false_2. tauto.
    + rewrite should_announce_fresh by done. simpl.
      symmetry. apply bool_decide_eq_true_2. split; [done | apply not_elem_of_nil].
  - rewrite (IH _ _ _ Hi He). f_equal. apply bool_decide_ext.
    rewrite should_announce_announced, not_elem_of_cons. split.
    + intros [Hnot Hearlier]. split; [| split; [| done]].
      * intros Hin. apply Hnot. by left.
      * intros ->. apply Hnot. by right.
    + intros (Hnot & Hne & Hearlier). split; [| done].
      by intros [Hin | [Heq _]].
Qed.

(** C1.  In one announcement cycle, that is, starting from an empty set of
    fired thresholds and with no reset in between, consider any sequence
    [ms] of calls to [should_announce].  If the [i]-th call is made with an
    eligible value [m] (a ladder value, or a minute in [1, 20)), it answers
    [True] when no earlier call of the sequence had the same [m], and
    [False] when one had. *)
Theorem should_announce_once t ms i m :
  announced_intervals t = ∅ → eligible m → ms !! i = Some m →
  (m ∉ take i ms → (fst (announce_all ms t)) !! i = Some true) ∧
  (m ∈ take i ms → (fst (announce_all ms t)) !! i = Some false).
Proof.
  intros Hempty He Hi. rewrite (announce_all_lookup _ _ _ _ Hi He), Hempty.
  split; intros Hm; f_equal.
  - apply bool_decide_eq_true_2. split; [apply not_elem_of_empty | done].
  - apply bool_decide_eq_false_2. tauto.
Qed.

Lemma should_announce_once_witness :
  let t := example_timer example_times ∅ in
  (fst (announce_all [30; 19; 30; 19] t)) !! 0%nat = Some true ∧
  (fst (announce_all [30; 19; 30; 19] t)) !! 2%nat = Some false.
Proof.
  split.
  - apply (should_announce_once _ [30; 19; 30; 19] 0%nat 30);
      [reflexivity | left; repeat constructor | reflexivity |].
    simpl. apply not_elem_of_nil.
  - apply (should_announce_once _ [30; 19; 30; 19] 2%nat 30);
      [reflexivity | left; repeat constructor | reflexivity |].
    simpl. constructor.
Defined.

Lemma ladder_bounds m : m ∈ ANNOUNCEMENT_INTERVALS → 20 ≤ m ≤ 180.
Proof.
  unfold ANNOUNCEMENT_INTERVALS. intros Hin.
  repeat (apply elem_of_cons in Hin as [-> | Hin]; [lia |]).
  by apply elem_of_nil in Hin.
Qed.

Lemma outside_not_eligible m :
  m = 0 ∨ 181 ≤ m ∨ (20 ≤ m ∧ m ∉ ANNOUNCEMENT_INTERVALS) → ¬ eligible m.
Proof.
  intros Hm [Hin | Hlow].
  - apply ladder_bounds in Hin as Hb.
    destruct Hm as [-> | [Hbig | [_ Hout]]]; [lia | lia | done].
  - destruct Hm as [-> | [Hbig | [Hbig _]]]; lia.
Qed.

(** C5.  For [m = 0], for [m >= 181], and for any [m >= 20] that is not on
    the ladder, [should_announce m] answers [False] and leaves the timer
    untouched, whatever its state. *)
Theorem should_announce_never t m :
  m = 0 ∨ 181 ≤ m ∨ (20 ≤ m ∧ m ∉ ANNOUNCEMENT_INTERVALS) →
  should_announce m t = (false, t).
Proof.
  intros Hm. by apply should_announce_ineligible, outside_not_eligible.
Qed.

Lemma should_announce_never_witness :
  let t := example_timer example_times {[30]} in
  should_announce 0 t = (false, t) ∧ should_announce 181 t = (false, t) ∧
  should_announce 25 t = (false, t).
Proof.
  intros t. split; [| split].
  - apply should_announce_never. by left.
  - apply should_announce_never. right; left; lia.
  - apply should_announce_never. right; right. split; [lia |].
    intros Hin. unfold ANNOUNCEMENT_INTERVALS in Hin.
    repeat (apply elem_of_cons in Hin as [Heq | Hin]; [discriminate Heq |]).
    by apply elem_of_nil in Hin.
Defined.

(** C6.  A threshold that has fired answers [False]; once the deadline
    branch has reset the announcement state (lines 274-275), every eligible
    [m] answers [True] at its next call. *)
Theorem reset_rearms_thresholds t m :
  eligible m →
  (m ∈ announced_intervals t → fst (should_announce m t) = false) ∧
  fst (should_announce m (snd (mark_announced t))) = true.
Proof.
  intros He. split.
  - intros Hin. by rewrite should_announce_fired.
  - rewrite should_announce_fresh; [done | done |]. simpl. apply not_elem_of_empty.
Qed.

Lemma reset_rearms_thresholds_witness :
  let t := example_timer example_times {[30; 5; 1]} in
  fst (should_announce 30 t) = false ∧
  fst (should_announce 30 (snd (mark_announced t))) = true.
Proof.
  intros t.
  destruct (reset_rearms_thresholds t 30) as [Hbefore Hafter];
    [left; repeat constructor |].
  split; [| exact Hafter]. apply Hbefore. vm_compute. reflexivity.
Defined.
End thresholds.

Section floats.
Implicit Types a b c n d K : Z.

Lemma round_half_even_lower a b : a `div` b ≤ round_half_even a b.
Proof.
  unfold round_half_even.
  repeat match goal with |- context [if ?c then _ else _] => destruct c end; lia.
Qed.

(** Rounding adds at most a half. *)
Lemma round_half_even_half a b :
  0 < b → 2 * round_half_even a b * b ≤ 2 * a + b.
Proof.
  intros Hb. unfold round_half_even.
  pose proof (Z.div_mod a b ltac:(lia)) as Hdm.
  pose proof (Z.mod_pos_bound a b Hb) as Hr.
  destruct (Z.ltb_spec (2 * (a `mod` b)) b); [nia |].
  destruct (Z.ltb_spec b (2 * (a `mod` b))); [nia |].
  destruct (Z.even (a `div` b)); nia.
Qed.

Lemma binade_lower n d :
  0 < n → 0 < d → 0 ≤ binade n d → 2 ^ binade n d * d ≤ n.
Proof.
  intros Hn Hd. unfold binade.
  pose proof (Z.log2_nonneg n) as Hln. pose proof (Z.log2_nonneg d) as Hld.
  destruct (Z.log2_spec n Hn) as [Hn1 Hn2].
  destruct (Z.log2_spec d Hd) as [Hd1 Hd2].
  set (e0 := Z.log2 n - Z.log2 d).
  destruct (Z.ltb_spec (n * 2 ^ Z.max 0 (- e0)) (d * 2 ^ Z.max 0 e0)) as [Hlt | Hge];
    intros He.
  - assert (2 ^ Z.log2 n = 2 ^ (e0 - 1) * 2 ^ (Z.succ (Z.log2 d))) as Hsplit.
    { rewrite <- Z.pow_add_r by lia. f_equal. lia. }
    assert (0 < 2 ^ (e0 - 1)) by (apply Z.pow_pos_nonneg; lia).
    nia.
  - rewrite (Z.max_r 0 e0), (Z.max_l 0 (- e0)) in Hge by lia.
    rewrite Z.pow_0_r in Hge. lia.
Qed.

Lemma int_true_div_opp n d : int_true_div (- n) d = - int_true_div n d.
Proof.
  unfold int_true_div. rewrite Z.abs_opp, Z.sgn_opp.
  destruct (Z.eqb_spec n 0) as [-> | ?]; [done |].
  destruct (Z.eqb_spec (- n) 0); lia.
Qed.

(** The double of a quotient at least [K] is at least [K]: integers below
    [2^53] are doubles. *)
Lemma int_true_div_lower n d K :
  0 < d → 0 ≤ K < 2 ^ 53 → K * d ≤ n → K ≤ int_true_div n d.
Proof.
  intros Hd HK Hn. unfold int_true_div.
  destruct (Z.eqb_spec n 0) as [-> | Hn0]; [nia |].
  assert (0 < n) as Hpos by nia.
  rewrite Z.abs_eq, Z.sgn_pos, Z.mul_1_l by lia.
  set (e := binade n d).
  destruct (Z.leb_spec 0 (52 - e)) as [Hs | Hs].
  - assert (0 < 2 ^ (52 - e)) as Hp by (apply Z.pow_pos_nonneg; lia).
    apply Z.div_le_lower_bound; [done |].
    etrans; [| apply round_half_even_lower].
    apply Z.div_le_lower_bound; [done |]. nia.
  - pose proof (binade_lower n d Hpos Hd ltac:(fold e; lia)) as He. fold e in He.
    assert (2 ^ e = 2 ^ 52 * 2 ^ (- (52 - e))) as Hsplit.
    { rewrite <- Z.pow_add_r by lia. f_equal. lia. }
    assert (2 ≤ 2 ^ (- (52 - e))) as Hp.
    { change 2 with (2 ^ 1) at 1. apply Z.pow_le_mono_r; lia. }
    assert (2 ^ 52 ≤ round_half_even n (d * 2 ^ (- (52 - e)))) as HM.
    { etrans; [| apply round_half_even_lower].
      apply Z.div_le_lower_bound; [nia |]. nia. }
    change (2 ^ 53) with 9007199254740992 in HK.
    change (2 ^ 52) with 4503599627370496 in HM. nia.
Qed.

(** Below [2^34] the doubles are less than [2^-19] apart, and a quotient
    by [d < 2^20] that is not an integer is at least [1/d] away from the
    next one: rounding does not reach it. *)
Lemma int_true_div_exact n d :
  0 < d < 2 ^ 20 → 0 ≤ n < 2 ^ 34 * d → int_true_div n d = n `div` d.
Proof.
  intros Hd Hn. unfold int_true_div.
  destruct (Z.eqb_spec n 0) as [-> | Hn0]; [by rewrite Z.div_0_l by lia |].
  assert (0 < n) as Hpos by lia.
  rewrite Z.abs_eq, Z.sgn_pos, Z.mul_1_l by lia.
  set (e := binade n d).
  assert (e ≤ 33) as He.
  { destruct (Z.le_gt_cases e 33) as [? | Hgt]; [done |].
    pose proof (binade_lower n d Hpos ltac:(lia) ltac:(fold e; lia)) as Hlow.
    fold e in Hlow.
    assert (2 ^ 34 ≤ 2 ^ e) by (apply Z.pow_le_mono_r; lia). nia. }
  rewrite (proj2 (Z.leb_le 0 (52 - e))) by lia.
  set (P := 2 ^ (52 - e)).
  assert (2 ^ 19 ≤ P) as HP by (apply Z.pow_le_mono_r; lia).
  set (M := round_half_even (n * P) d).
  pose proof (round_half_even_lower (n * P) d) as Hlow. fold M in Hlow.
  pose proof (round_half_even_half (n * P) d ltac:(lia)) as Hup. fold M in Hup.
  pose proof (Z.div_mod n d ltac:(lia)) as Hdm.
  pose proof (Z.mod_pos_bound n d ltac:(lia)) as Hr.
  assert (0 ≤ n `div` d) as Hq by (apply Z.div_pos; lia).
  assert ((n `div` d) * P ≤ (n * P) `div` d) as Hfloor.
  { apply Z.div_le_lower_bound; [lia |]. nia. }
  change (2 ^ 19) with 524288 in HP. change (2 ^ 20) with 1048576 in Hd.
  symmetry. apply Z.div_unique with (r := M - (n `div` d) * P); [| lia].
  left. split; [lia |].
  destruct (Z.lt_ge_cases M ((n `div` d + 1) * P)) as [? | Hge]; [lia |].
  exfalso.
  assert (2 * (n `div` d + 1) * P * d ≤ 2 * (n * P) + d) as Hc by nia.
  assert (2 * (d - n `mod` d) * P ≤ d) as Hc' by nia.
  nia.
Qed.

Lemma int_total_seconds_opp delta :
  int_total_seconds (- delta) = - int_total_seconds delta.
Proof. apply int_true_div_opp. Qed.

Lemma int_total_seconds_exact delta :
  0 ≤ delta < 17179869184000000 →
  int_total_seconds delta = delta `div` 1000000.
Proof.
  intros Hd. apply int_true_div_exact; [split; [lia | reflexivity] |].
  change (2 ^ 34 * 1000000) with 17179869184000000. lia.
Qed.

Lemma int_total_seconds_lower delta K :
  0 ≤ K < 9007199254740992 → K * 1000000 ≤ delta → K ≤ int_total_seconds delta.
Proof. intros HK Hd. apply int_true_div_lower; [lia | done | done]. Qed.

(** Within [2^34] seconds either way (some 544 years) the float holds the
    seconds to better than a microsecond, and [int] gives the quotient
    truncated toward zero. *)
Lemma int_total_seconds_quot delta :
  -17179869184000000 < delta < 17179869184000000 →
  int_total_seconds delta = delta `quot` 1000000.
Proof.
  intros Hd. destruct (Z.le_gt_cases 0 delta) as [Hpos | Hneg].
  - rewrite int_total_seconds_exact by lia. by rewrite Z.quot_div_nonneg by lia.
  - rewrite <- (Z.opp_involutive delta) at 1.
    rewrite int_total_seconds_opp, int_total_seconds_exact by lia.
    rewrite <- Z.quot_div_nonneg by lia. rewrite Z.quot_opp_l by lia. lia.
Qed.

(** The whole seconds are zero exactly within a second of the target. *)
Lemma int_total_seconds_zero delta :
  int_total_seconds delta = 0 ↔ -1000000 < delta < 1000000.
Proof.
  assert (∀ x, 0 ≤ x → int_total_seconds x = 0 ↔ x < 1000000) as Hpos.
  { intros x Hx. split.
    - intros H0. destruct (Z.lt_ge_cases x 1000000) as [? | Hge]; [done |].
      pose proof (int_total_seconds_lower x 1 ltac:(lia) ltac:(lia)). lia.
    - intros Hlt. rewrite int_total_seconds_exact by lia.
      apply Z.div_small. lia. }
  destruct (Z.le_gt_cases 0 delta) as [Hd | Hd].
  - rewrite Hpos by done. lia.
  - specialize (Hpos (- delta) ltac:(lia)).
    rewrite int_total_seconds_opp in Hpos. lia.
Qed.

(** They are negative exactly from one second past the target on. *)
Lemma int_total_seconds_neg delta :
  int_total_seconds delta < 0 ↔ delta ≤ -1000000.
Proof.
  destruct (Z.le_gt_cases 0 delta) as [Hd | Hd].
  - pose proof (int_total_seconds_lower delta 0 ltac:(lia) ltac:(lia)). lia.
  - pose proof (int_total_seconds_opp delta) as Hopp.
    destruct (Z.le_gt_cases delta (-1000000)) as [Hle | Hgt].
    + pose proof (int_total_seconds_lower (- delta) 1 ltac:(lia) ltac:(lia)). lia.
    + pose proof (proj2 (int_total_seconds_zero delta) ltac:(lia)). lia.
Qed.
End floats.

Section datetimes.
Implicit Types a b d : datetime.

Lemma dt_sub_to_us a b : dt_sub a b = to_us a - to_us b.
Proof. unfold dt_sub, to_us. lia. Qed.

(** On valid datetimes the field-wise order is the order of instants. *)
Lemma dt_gt_to_us a b :
  valid_datetime a → valid_datetime b →
  dt_gt a b = true ↔ to_us b < to_us a.
Proof.
  intros (_ & Hh & Hm & Hs & Hu) (_ & Hh' & Hm' & Hs' & Hu').
  unfold dt_gt, dt_cmp, lex, to_us.
  destruct (Z.compare_spec (ordinal a) (ordinal b));
    [destruct (Z.compare_spec (hour a) (hour b));
      [destruct (Z.compare_spec (minute a) (minute b));
        [destruct (Z.compare_spec (second a) (second b));
          [destruct (Z.compare_spec (microsecond a) (microsecond b)) | |] | |] | |] | |];
    (split; [intros ?; try discriminate | intros ?; try reflexivity]); lia.
Qed.


Lemma time_remaining_spec target now :
  0 < dt_sub target now < 2 ^ 34 * 1000000 →
  let total := dt_sub target now `div` 1000000 in
  time_remaining target now =
    (total `div` 3600, (total `mod` 3600) `div` 60, total `mod` 60).
Proof.
  change (2 ^ 34 * 1000000) with 17179869184000000.
  intros Hpos. unfold time_remaining.
  by rewrite int_total_seconds_exact by lia.
Qed.
End datetimes.

(** C4.  When the target instant is strictly after the clock reading and
    less than [2^34] seconds (some 544 years) after it,
    [get_time_remaining] returns [(total // 3600, (total % 3600) // 60,
    total % 60)] for [total] the difference in whole seconds; the three are
    non-negative, minutes and seconds are below 60, and together they make
    up [total].  Further apart the float of [total_seconds] no longer holds
    the microseconds, and can round up to the next second. *)
Theorem get_time_remaining_decomposes w target :
  let now := clock w (ticks w) in
  valid_datetime now → valid_datetime target → dt_gt target now = true →
  to_us target - to_us now < 2 ^ 34 * 1000000 →
  let total := (to_us target - to_us now) `div` 1000000 in
  ∃ hours minutes seconds,
    fst (get_time_remaining (Some target) w) = Ret (hours, minutes, seconds) ∧
    hours = total `div` 3600 ∧
    minutes = (total `mod` 3600) `div` 60 ∧
    seconds = total `mod` 60 ∧
    0 ≤ hours ∧ 0 ≤ minutes < 60 ∧ 0 ≤ seconds < 60 ∧
    hours * 3600 + minutes * 60 + seconds = total.
Proof.
  intros now Hnow Htarget Hgt Hspan total.
  apply dt_gt_to_us in Hgt; [| done | done].
  assert (0 ≤ total) as Htotal by (apply Z.div_pos; lia).
  eexists _, _, _. split.
  - unfold get_time_remaining, bind, datetime_now, ret. simpl.
    rewrite time_remaining_spec by (rewrite dt_sub_to_us; fold now; lia).
    simpl. rewrite dt_sub_to_us. reflexivity.
  - fold now total.
    pose proof (Z.mod_pos_bound total 3600 ltac:(lia)).
    pose proof (Z.mod_pos_bound total 60 ltac:(lia)).
    pose proof (Z.mod_pos_bound (total `mod` 3600) 60 ltac:(lia)).
    pose proof (Z.div_mod total 3600 ltac:(lia)).
    pose proof (Z.div_mod (total `mod` 3600) 60 ltac:(lia)).
    assert ((total `mod` 3600) `mod` 60 = total `mod` 60) as Hmm.
    { apply Z.mod_mod_divide. exists 60. lia. }
    repeat split; try done; lia.
Qed.

Lemma get_time_remaining_decomposes_witness :
  fst (get_time_remaining (Some (DateTime 739558 12 0 5 0))
         (example_machine (example_timer example_times ∅) (DateTime 739558 12 0 0 0)
            (DateTime 739558 12 0 0 0) no_faults)) = Ret (0, 0, 5) ∧
  fst (get_time_remaining (Some (DateTime 739558 12 30 15 0))
         (example_machine (example_timer example_times ∅) (DateTime 739558 10 0 0 0)
            (DateTime 739558 10 0 0 0) no_faults)) = Ret (2, 30, 15).
Proof.
  split.
  - destruct (get_time_remaining_decomposes
      (example_machine (example_timer example_times ∅) (DateTime 739558 12 0 0 0)
         (DateTime 739558 12 0 0 0) no_faults) (DateTime 739558 12 0 5 0))
      as (h & m & s & -> & -> & -> & -> & _);
      [unfold valid_datetime; simpl; lia | unfold valid_datetime; simpl; lia
      | reflexivity | reflexivity | reflexivity].
  - destruct (get_time_remaining_decomposes
      (example_machine (example_timer example_times ∅) (DateTime 739558 10 0 0 0)
         (DateTime 739558 10 0 0 0) no_faults) (DateTime 739558 12 30 15 0))
      as (h & m & s & -> & -> & -> & -> & _);
      [unfold valid_datetime; simpl; lia | unfold valid_datetime; simpl; lia
      | reflexivity | reflexivity | reflexivity].
Defined.

Lemma get_time_remaining_long_span :
  let now := DateTime 1 0 0 0 1 in
  let target := DateTime 730120 0 0 0 0 in
  let w := example_machine (example_timer example_times ∅) now now no_faults in
  let total := (to_us target - to_us now) `div` 1000000 in
  valid_datetime now ∧ valid_datetime target ∧
  dt_gt target now = true ∧
  total = 63082281599 ∧
  (total `div` 3600, (total `mod` 3600) `div` 60, total `mod` 60)
    = (17522855, 59, 59) ∧
  fst (get_time_remaining (Some target) w) = Ret (17522856, 0, 0).
Proof.
  split; [unfold valid_datetime; simpl; lia |].
  split; [unfold valid_datetime; simpl; lia |].
  vm_compute. repeat split.
Qed.

(** A step that makes no outside call. *)
Ltac silent :=
  do 2 (split; [reflexivity |]); split; [| exact I];
  exists []; split; [by rewrite app_nil_r | constructor].

Section safety.
Context (P : call → Prop).

Lemma safe_ret {A} (a : A) : safe P (ret a).
Proof.
  intros w. simpl. silent.
Qed.

Lemma safe_raise {A} (e : error) : safe P (@raise A (Exception e)).
Proof.
  intros w. simpl. silent.
Qed.

Lemma safe_lift {A} (r : error + A) : safe P (lift r).
Proof. destruct r; [apply safe_raise | apply safe_ret]. Qed.

Lemma safe_get_self : safe P get_self.
Proof.
  intros w. simpl. silent.
Qed.

Lemma safe_method {A} (f : PrayerTimer → A * PrayerTimer) : safe P (method f).
Proof.
  intros w. unfold method. destruct (f (self w)). simpl. silent.
Qed.

Lemma safe_datetime_now : safe P datetime_now.
Proof.
  intros w. simpl. silent.
Qed.

Lemma safe_io c : P c → safe P (io c).
Proof.
  intros Hc w. unfold io. destruct (faults w (calls w) c) as [f |] eqn:Hf; simpl.
  - do 2 (split; [done |]). split.
    + exists []. by rewrite app_nil_r.
    + destruct f; simpl; [eauto | done].
  - do 2 (split; [done |]). split; [| done].
    exists [c]. split; [done |]. by constructor.
Qed.

(** Sequencing, with what is known of the value handed on. *)
Lemma safe_bind_post {A B} (Q : A → Prop) (m : M A) (f : A → M B) :
  safe P m →
  (∀ w a w', m w = (Ret a, w') → Q a) →
  (∀ a, Q a → safe P (f a)) →
  safe P (bind m f).
Proof.
  intros Hm HQ Hf w. unfold bind.
  specialize (Hm w). specialize (HQ w).
  destruct (m w) as [[a | x] w1]; [| done].
  specialize (Hf a (HQ a w1 eq_refl) w1).
  destruct (f a w1) as [r w2].
  destruct Hm as (Hfa & Hcl & (evs1 & Htr1 & HP1) & _).
  destruct Hf as (Hfa' & Hcl' & (evs2 & Htr2 & HP2) & Hr).
  split; [congruence |]. split; [congruence |]. split.
  - exists (evs1 ++ evs2). split.
    + by rewrite Htr2, Htr1, app_assoc.
    + by apply Forall_app.
  - destruct r as [b | [e | | code]]; try done.
    destruct Hr as (k & c & Hk). exists k, c. by rewrite <- Hfa.
Qed.

Lemma safe_bind {A B} (m : M A) (f : A → M B) :
  safe P m → (∀ a, safe P (f a)) → safe P (bind m f).
Proof.
  intros Hm Hf. apply (safe_bind_post (λ _, True)); auto.
Qed.
End safety.

Ltac safe_step :=
  first
    [ apply safe_ret | apply safe_raise | apply safe_lift | apply safe_get_self
    | apply safe_method | apply safe_datetime_now
    | apply safe_bind; [| intros ?] ].

Section engine_safety.
Context (P : call → Prop).
Hypothesis P_print : ∀ l, l ≠ NoUpcoming → P (Print l).
Hypothesis P_sleep : ∀ n, P (Sleep n).
Hypothesis P_azan : P PlayAzan.

Lemma safe_print l : l ≠ NoUpcoming → safe P (print l).
Proof. intros Hl. apply safe_io. by apply P_print. Qed.

Lemma safe_sleep n : safe P (sleep n).
Proof. apply safe_io, P_sleep. Qed.

Lemma safe_display_rows prayers : safe P (display_rows prayers).
Proof.
  induction prayers as [| prayer rest IH]; simpl; [apply safe_ret |].
  repeat safe_step; [by apply safe_print | done].
Qed.

Lemma safe_display_prayer_times : safe P display_prayer_times.
Proof.
  unfold display_prayer_times.
  repeat first [apply safe_display_rows | by apply safe_print | safe_step].
Qed.

Lemma safe_play_azan : safe P play_azan.
Proof. unfold play_azan. repeat safe_step. by apply safe_io. Qed.

Lemma safe_countdown_step name hours minutes seconds :
  safe P (countdown_step name hours minutes seconds).
Proof.
  unfold countdown_step, text_to_speech.
  assert (∀ b : bool,
    safe P (if b then print (Announcement (announcement (hours * 60 + minutes) name))
            else ret ())) as Hsay.
  { intros []; [by apply safe_print | apply safe_ret]. }
  destruct (bool_decide (hours * 60 + minutes = 0) && bool_decide (seconds = 0)).
  - safe_step; [safe_step |].
    destruct (negb (current_prayer_announced a));
      repeat first [apply safe_play_azan | apply safe_display_prayer_times
                   | apply Hsay | apply safe_sleep | by apply safe_print
                   | safe_step].
  - repeat first [apply Hsay | apply safe_sleep | safe_step].
Qed.
End engine_safety.

Section parsing.
Lemma digit_range c x : digit c = Some x → 0 ≤ x ≤ 9.
Proof.
  unfold digit. destruct (_ && _) eqn:Hb; [| done].
  intros [= <-]. apply andb_true_iff in Hb as [?%Z.leb_le ?%Z.leb_le]. lia.
Qed.

Lemma hour_alts_range s h rest : (h, rest) ∈ hour_alts s → 0 ≤ h < 24.
Proof.
  destruct s as [| a [| b s]]; simpl; [by intros ?%elem_of_nil | |].
  - destruct (digit a) as [x |] eqn:Ha; [| by intros ?%elem_of_nil].
    apply digit_range in Ha. intros [= -> _]%list_elem_of_singleton. lia.
  - destruct (digit a) as [x |] eqn:Ha; [| by intros ?%elem_of_nil].
    apply digit_range in Ha.
    destruct (digit b) as [y |] eqn:Hb.
    + apply digit_range in Hb.
      rewrite !elem_of_app. intros [Hin | [Hin | Hin]].
      * case_bool_decide; [| by apply elem_of_nil in Hin].
        apply list_elem_of_singleton in Hin as [= -> _]. lia.
      * case_bool_decide; [| by apply elem_of_nil in Hin].
        apply list_elem_of_singleton in Hin as [= -> _]. lia.
      * apply list_elem_of_singleton in Hin as [= -> _]. lia.
    + intros [= -> _]%list_elem_of_singleton. lia.
Qed.

Lemma minute_alts_range s mi rest : (mi, rest) ∈ minute_alts s → 0 ≤ mi < 60.
Proof.
  destruct s as [| a [| b s]]; simpl; [by intros ?%elem_of_nil | |].
  - destruct (digit a) as [x |] eqn:Ha; [| by intros ?%elem_of_nil].
    apply digit_range in Ha. intros [= -> _]%list_elem_of_singleton. lia.
  - destruct (digit a) as [x |] eqn:Ha; [| by intros ?%elem_of_nil].
    apply digit_range in Ha.
    destruct (digit b) as [y |] eqn:Hb.
    + apply digit_range in Hb.
      rewrite !elem_of_app. intros [Hin | Hin].
      * case_bool_decide; [| by apply elem_of_nil in Hin].
        apply list_elem_of_singleton in Hin as [= -> _]. lia.
      * apply list_elem_of_singleton in Hin as [= -> _]. lia.
    + intros [= -> _]%list_elem_of_singleton. lia.
Qed.

(** What [strptime] returns is a time of day on the minute. *)
Lemma strptime_range v d :
  strptime v = inr d →
  0 ≤ hour d < 24 ∧ 0 ≤ minute d < 60 ∧ second d = 0 ∧ microsecond d = 0.
Proof.
  destruct v; try done. simpl. unfold strptime_HM.
  destruct (omap after_colon (hour_alts s)) as [| [h rest] alts] eqn:Hh; [done |].
  destruct (minute_alts rest) as [| [mi [|]] alts'] eqn:Hm; try done.
  intros [= <-]. simpl.
  assert ((h, rest) ∈ omap after_colon (hour_alts s)) as Hin
    by (rewrite Hh; constructor).
  apply list_elem_of_omap in Hin as ([h' rest'] & Hin & Hac).
  unfold after_colon in Hac. simpl in Hac.
  destruct rest' as [| c rest']; [done |].
  destruct (Ascii.ascii_dec c ":") as [-> | Hne];
    [| by destruct c as [[] [] [] [] [] [] [] []]].
  injection Hac as -> ->.
  apply hour_alts_range in Hin.
  assert ((mi, EmptyString) ∈ minute_alts rest) as Hin' by (rewrite Hm; constructor).
  apply minute_alts_range in Hin'. lia.
Qed.
End parsing.

Section next_prayer.
Implicit Types (times : json) (now d : datetime) (ps : list string).

Lemma time_of_Some times prayer d :
  time_of times prayer = Some d ↔
  ∃ v, getitem times prayer = inr v ∧ strptime v = inr d.
Proof.
  unfold time_of. split.
  - destruct (getitem times prayer) as [| v]; [done |].
    destruct (strptime v) eqn:Hs; [done |]. intros [= <-]. eauto.
  - intros (v & -> & ->). done.
Qed.

Lemma scan_prayers_cons times now prayer ps d :
  time_of times prayer = Some d →
  scan_prayers times now (prayer :: ps) =
    if dt_gt (replace_date d now) now
    then inr (Some (prayer, replace_date d now))
    else scan_prayers times now ps.
Proof. intros (v & Hv & Hd)%time_of_Some. simpl. by rewrite Hv, Hd. Qed.

(** The loop returns at the first prayer later than [now] today, and
    runs to its end when there is none. *)
Lemma scan_prayers_spec times now ps :
  (∀ p, p ∈ ps → is_Some (time_of times p)) →
  (∃ (i : nat) p d,
      ps !! i = Some p ∧ time_of times p = Some d ∧
      dt_gt (replace_date d now) now = true ∧
      (∀ (j : nat) q e, (j < i)%nat → ps !! j = Some q → time_of times q = Some e →
                 dt_gt (replace_date e now) now = false) ∧
      scan_prayers times now ps = inr (Some (p, replace_date d now)))
  ∨ ((∀ q e, q ∈ ps → time_of times q = Some e →
             dt_gt (replace_date e now) now = false) ∧
     scan_prayers times now ps = inr None).
Proof.
  induction ps as [| p ps IH]; intros Hwf.
  - right. split; [| done]. by intros q e ?%elem_of_nil.
  - destruct (Hwf p) as [d Hd]; [constructor |].
    rewrite (scan_prayers_cons _ _ _ _ _ Hd).
    destruct (dt_gt (replace_date d now) now) eqn:Hgt.
    + left. exists 0%nat, p, d. repeat split; try done. intros j ? ? ?. lia.
    + destruct IH as [(i & q & e & Hi & He & Hq & Hbefore & Hscan) | [Hnone Hscan]].
      { intros q Hq. apply Hwf. by constructor. }
      * left. exists (S i), q, e. repeat split; try done.
        intros [| j] q' e' Hj Hq' He'; simpl in Hq'.
        -- injection Hq' as <-. congruence.
        -- apply (Hbefore j q' e'); [lia | done | done].
      * right. split; [| done].
        intros q e [-> | Hin]%elem_of_cons He; [congruence | eauto].
Qed.

Lemma scan_prayers_name times now ps p t :
  scan_prayers times now ps = inr (Some (p, t)) → p ∈ ps.
Proof.
  induction ps as [| q ps IH]; simpl; [done |].
  destruct (getitem times q) as [| v]; [done |].
  destruct (strptime v) as [| d]; [done |].
  destruct (dt_gt _ _).
  - intros [= <- _]. constructor.
  - intros H. constructor. auto.
Qed.

Lemma add_days_next now :
  0 ≤ ordinal now < 3652059 →
  add_days now 1
    = inr (DateTime (ordinal now + 1) (hour now) (minute now) (second now)
                    (microsecond now)).
Proof. intros Hord. unfold add_days. by rewrite bool_decide_eq_true_2 by lia. Qed.

(** There is no day after 9999-12-31. *)
Lemma add_days_last now :
  3652059 ≤ ordinal now → add_days now 1 = inl OverflowError.
Proof. intros Hord. unfold add_days. by rewrite bool_decide_eq_false_2 by lia. Qed.


(** Whenever [get_next_prayer] returns, it names one of the five prayers. *)
Lemma next_prayer_at_name times now r :
  next_prayer_at times now = inr r →
  ∃ name instant, r = (Some name, Some instant) ∧ name ∈ PRAYERS.
Proof.
  unfold next_prayer_at.
  destruct (scan_prayers times now PRAYERS) as [| [[p t] |]] eqn:Hscan; [done | |].
  - intros [= <-]. exists p, t. split; [done |]. by eapply scan_prayers_name.
  - destruct (add_days now 1) as [| tomorrow]; [done |].
    destruct (getitem times "Fajr") as [| v]; [done |].
    destruct (strptime v) as [| d]; [done |].
    intros [= <-]. eexists _, _. split; [done |]. constructor.
Qed.

Lemma prayer_name_nonempty name : name ∈ PRAYERS → name ≠ "".
Proof.
  unfold PRAYERS. intros Hin.
  repeat (apply elem_of_cons in Hin as [-> | Hin]; [done |]).
  by apply elem_of_nil in Hin.
Qed.

Lemma get_next_prayer_run w :
  get_next_prayer w =
    (match next_prayer_at (prayer_times (self w)) (clock w (ticks w)) with
     | inr r => Ret r
     | inl e => Raise (Exception e)
     end,
     Machine (self w) (clock w) (S (ticks w)) (faults w) (calls w) (trace w)).
Proof.
  unfold get_next_prayer, bind, datetime_now, get_self, lift. simpl.
  by destruct (next_prayer_at _ _).
Qed.

Lemma to_us_replace_date d now :
  second d = 0 → microsecond d = 0 →
  to_us (replace_date d now)
    = (ordinal now * 86400 + hour d * 3600 + minute d * 60) * 1000000.
Proof. intros Hs Hu. unfold to_us, replace_date. simpl. lia. Qed.

Lemma time_of_range times p d :
  time_of times p = Some d →
  0 ≤ hour d < 24 ∧ 0 ≤ minute d < 60 ∧ second d = 0 ∧ microsecond d = 0.
Proof. intros (v & _ & Hv)%time_of_Some. by apply strptime_range in Hv. Qed.

Lemma valid_replace_date times p d now :
  time_of times p = Some d → valid_datetime now →
  valid_datetime (replace_date d now).
Proof.
  intros Hd%time_of_range (Hord & _). unfold valid_datetime. simpl. lia.
Qed.

(** For a time of the schedule put on the date of a valid [now], the
    comparison of the code is the order of instants. *)
Lemma later_to_us times p d now :
  time_of times p = Some d → valid_datetime now →
  dt_gt (replace_date d now) now = true ↔ to_us now < to_us (replace_date d now).
Proof.
  intros Hd Hnow. apply dt_gt_to_us; [by eapply valid_replace_date | done].
Qed.

Lemma not_later_to_us times p d now :
  time_of times p = Some d → valid_datetime now →
  dt_gt (replace_date d now) now = false →
  to_us (replace_date d now) ≤ to_us now.
Proof.
  intros Hd Hnow Hgt.
  destruct (decide (to_us now < to_us (replace_date d now))) as [Hlt |]; [| lia].
  apply (later_to_us _ _ _ _ Hd Hnow) in Hlt. congruence.
Qed.
End next_prayer.

(** With a schedule of five times [get_next_prayer] ends in one of three
    ways: by the [return] inside the loop, by the [return] after it, or by
    the addition of a day raising before that. *)
Lemma next_prayer_at_cases times now :
  well_formed times →
  (∃ (i : nat) name d,
      PRAYERS !! i = Some name ∧ time_of times name = Some d ∧
      dt_gt (replace_date d now) now = true ∧
      (∀ (j : nat) q e, (j < i)%nat → PRAYERS !! j = Some q →
                        time_of times q = Some e →
                        dt_gt (replace_date e now) now = false) ∧
      next_prayer_at times now = inr (Some name, Some (replace_date d now)))
  ∨ ((∀ q e, q ∈ PRAYERS → time_of times q = Some e →
             dt_gt (replace_date e now) now = false) ∧
     ∃ d, time_of times "Fajr" = Some d ∧
          next_prayer_at times now =
            match add_days now 1 with
            | inr tomorrow => inr (Some "Fajr", Some (replace_date d tomorrow))
            | inl e => inl e
            end).
Proof.
  intros Hwf. unfold next_prayer_at.
  destruct (scan_prayers_spec times now PRAYERS Hwf)
    as [(i & p & d & Hi & Hd & Hgt & Hbefore & ->) | [Hnone ->]].
  - left. by exists i, p, d.
  - right. split; [done |].
    destruct (Hwf "Fajr") as [d Hd]; [constructor |].
    exists d. split; [done |].
    pose proof Hd as (v & -> & ->)%time_of_Some. done.
Qed.

(** C3.  For a schedule of five prayer times and an instant [now],
    [get_next_prayer] scans the prayers in the order Fajr, Dhuhr, Asr,
    Maghrib, Isha and returns the first whose time of day on today's date is
    strictly after [now], by the comparison of the code and as instants:
    every prayer before it in that order is at or before [now].  If all
    five are at or before [now], it returns Fajr on tomorrow's date, at the
    hour and minute of the schedule; except on 9999-12-31, the last day a
    [datetime] can hold, where [now + timedelta(days=1)] raises
    [OverflowError] and nothing is returned. *)
Theorem get_next_prayer_scans w :
  let now := clock w (ticks w) in
  let times := prayer_times (self w) in
  well_formed times → valid_datetime now →
  (∃ (i : nat) name d,
      PRAYERS !! i = Some name ∧ time_of times name = Some d ∧
      dt_gt (replace_date d now) now = true ∧
      to_us now < to_us (replace_date d now) ∧
      (∀ (j : nat) q e, (j < i)%nat → PRAYERS !! j = Some q →
                        time_of times q = Some e →
                        dt_gt (replace_date e now) now = false ∧
                        to_us (replace_date e now) ≤ to_us now) ∧
      fst (get_next_prayer w) = Ret (Some name, Some (replace_date d now)))
  ∨ ((∀ q e, q ∈ PRAYERS → time_of times q = Some e →
             dt_gt (replace_date e now) now = false ∧
             to_us (replace_date e now) ≤ to_us now) ∧
     ∃ d, time_of times "Fajr" = Some d ∧
          ((ordinal now < 3652059 ∧
            fst (get_next_prayer w)
              = Ret (Some "Fajr",
                     Some (DateTime (ordinal now + 1) (hour d) (minute d) 0 0)))
           ∨ (ordinal now = 3652059 ∧
              fst (get_next_prayer w) = Raise (Exception OverflowError)))).
Proof.
  intros now times Hwf Hnow. rewrite get_next_prayer_run. simpl. fold now times.
  destruct (next_prayer_at_cases times now Hwf)
    as [(i & name & d & Hi & Hd & Hgt & Hbefore & ->)
       | (Hnone & d & Hd & ->)].
  - left. exists i, name, d. split; [done |]. split; [done |]. split; [done |].
    split; [by apply (later_to_us _ _ _ _ Hd Hnow) |]. split; [| done].
    intros j q e Hj Hq He. pose proof (Hbefore j q e Hj Hq He) as Hpast.
    split; [done |]. by eapply not_later_to_us.
  - right. split.
    { intros q e Hq He. pose proof (Hnone q e Hq He) as Hpast.
      split; [done |]. by eapply not_later_to_us. }
    exists d. split; [done |].
    pose proof (time_of_range _ _ _ Hd) as (_ & _ & Hs & Hu).
    pose proof Hnow as (Hord & _).
    destruct (decide (ordinal now < 3652059)) as [Hlt | Hlast].
    + left. split; [done |]. rewrite add_days_next by lia.
      unfold replace_date. simpl. by rewrite Hs, Hu.
    + right. split; [lia |]. by rewrite add_days_last by lia.
Qed.

Lemma example_times_well_formed : well_formed example_times.
Proof.
  intros p Hin. unfold PRAYERS in Hin.
  repeat (apply elem_of_cons in Hin as [-> | Hin]; [by eexists |]).
  by apply elem_of_nil in Hin.
Qed.

Lemma get_next_prayer_scans_witness :
  fst (get_next_prayer
         (example_machine (example_timer example_times ∅) (DateTime 739558 23 0 0 0)
            (DateTime 739558 23 0 0 0) no_faults))
    = Ret (Some "Fajr", Some (DateTime 739559 5 0 0 0)).
Proof.
  destruct (get_next_prayer_scans
              (example_machine (example_timer example_times ∅) (DateTime 739558 23 0 0 0)
                 (DateTime 739558 23 0 0 0) no_faults)
              example_times_well_formed)
    as [(i & name & d & _ & _ & _ & _ & _ & Heq)
       | (_ & d & Hd & [(_ & Heq) | (Hlast & _)])].
  - unfold valid_datetime. simpl. lia.
  - exfalso. vm_compute in Heq. congruence.
  - vm_compute in Hd. injection Hd as <-. exact Heq.
  - vm_compute in Hlast. discriminate Hlast.
Defined.

Lemma get_next_prayer_last_day :
  let now := DateTime 3652059 23 0 0 0 in
  let w := example_machine (example_timer example_times ∅) now now no_faults in
  well_formed (prayer_times (self w)) ∧
  1 ≤ ordinal now ≤ 3652059 ∧
  Forall (λ q, ∃ e, time_of (prayer_times (self w)) q = Some e ∧
                    dt_gt (replace_date e now) now = false) PRAYERS ∧
  fst (get_next_prayer w) = Raise (Exception OverflowError).
Proof.
  split; [exact example_times_well_formed |]. split; [simpl; lia |].
  split; [| reflexivity].
  repeat constructor; eexists; (split; [reflexivity | reflexivity]).
Qed.

Example next_prayer_after_isha day :
  0 ≤ day < 3652059 →
  next_prayer_at example_times (DateTime day 23 0 0 0)
  = inr (Some "Fajr", Some (DateTime (day + 1) 5 0 0 0)).
Proof.
  intros Hday. unfold next_prayer_at. cbn. unfold dt_gt, dt_cmp. cbn.
  rewrite Z.compare_refl. cbn. by rewrite add_days_next by done.
Qed.

Example next_prayer_on_last_day :
  next_prayer_at example_times (DateTime 3652059 23 0 0 0) = inl OverflowError.
Proof. reflexivity. Qed.

Example next_prayer_before_maghrib day :
  next_prayer_at example_times (DateTime day 18 0 0 0)
  = inr (Some "Maghrib", Some (DateTime day 19 0 0 0)).
Proof.
  unfold next_prayer_at. cbn. unfold dt_gt, dt_cmp. cbn.
  by rewrite Z.compare_refl.
Qed.

Section iteration_safety.
Context (P : call → Prop).
Hypothesis P_print : ∀ l, l ≠ NoUpcoming → P (Print l).
Hypothesis P_sleep : ∀ n, P (Sleep n).
Hypothesis P_azan : P PlayAzan.

Lemma safe_get_next_prayer : safe P get_next_prayer.
Proof. unfold get_next_prayer. repeat safe_step. Qed.

Lemma safe_get_time_remaining target : safe P (get_time_remaining target).
Proof.
  unfold get_time_remaining. safe_step; [safe_step |].
  destruct target; safe_step.
Qed.

(** The body of the loop never takes its "no upcoming prayers" branch. *)
Lemma safe_iteration : safe P iteration.
Proof.
  unfold iteration.
  apply (safe_bind_post P
           (λ r, ∃ name instant, r = (Some name, Some instant) ∧ name ∈ PRAYERS)).
  - apply safe_get_next_prayer.
  - intros w r w'. rewrite get_next_prayer_run.
    destruct (next_prayer_at _ _) as [| r'] eqn:Hnext; [done |].
    intros [= <- _]. by eapply next_prayer_at_name.
  - intros r (name & instant & -> & Hname).
    rewrite bool_decide_eq_false_2 by by apply prayer_name_nonempty.
    safe_step; [apply safe_get_time_remaining |].
    destruct a as [[hours minutes] seconds].
    safe_step; [safe_step |].
    safe_step; [by apply safe_print; auto |].
    by apply safe_countdown_step.
Qed.
End iteration_safety.




Section loop.
Implicit Types (w : machine) (fuel : nat).

Lemma io_completes c w :
  faults w (calls w) c = None →
  io c w = (Ret (), Machine (self w) (clock w) (ticks w) (faults w)
                            (S (calls w)) (trace w ++ [c])).
Proof. intros Hc. unfold io. by rewrite Hc. Qed.

(** What the body of the [try] can come to. *)
Lemma iteration_outcome w :
  faults (snd (iteration w)) = faults w ∧
  match fst (iteration w) with
  | Raise (SystemExit _) => False
  | Raise KeyboardInterrupt => ∃ k c, faults w k c = Some Interrupted
  | _ => True
  end.
Proof.
  pose proof (safe_iteration (λ _, True)) as Hsafe.
  specialize (Hsafe ltac:(done) ltac:(done) ltac:(done) w).
  destruct (iteration w) as [r w']. simpl. tauto.
Qed.

Lemma run_iteration_caught w e w1 :
  handlers_complete w → iteration w = (Raise (Exception e), w1) →
  run_iteration w =
    (Ret Continue,
     Machine (self w1) (clock w1) (ticks w1) (faults w1) (S (S (calls w1)))
             (trace w1 ++ [Print (LoopError e); Sleep 5])).
Proof.
  intros Hh Hit. pose proof (iteration_outcome w) as [Hf _].
  rewrite Hit in Hf. simpl in Hf.
  unfold run_iteration. rewrite Hit. unfold bind, print, sleep.
  rewrite io_completes by (rewrite Hf; apply Hh).
  rewrite io_completes by (simpl; rewrite Hf; apply Hh).
  simpl. by rewrite <- app_assoc.
Qed.

Lemma run_iteration_interrupted w w1 :
  handlers_complete w → iteration w = (Raise KeyboardInterrupt, w1) →
  run_iteration w =
    (Ret Break,
     Machine (self w1) (clock w1) (ticks w1) (faults w1) (S (calls w1))
             (trace w1 ++ [Print Farewell])).
Proof.
  intros Hh Hit. pose proof (iteration_outcome w) as [Hf _].
  rewrite Hit in Hf. simpl in Hf.
  unfold run_iteration. rewrite Hit. unfold bind, print.
  by rewrite io_completes by (rewrite Hf; apply Hh).
Qed.

(** One turn, when the handlers' own calls complete: it always returns;
    [break] is reached only through an interrupt, after the farewell. *)
Lemma run_iteration_outcome w :
  handlers_complete w →
  ∃ c w', run_iteration w = (Ret c, w') ∧ faults w' = faults w ∧
          (c = Break → (∃ k c, faults w k c = Some Interrupted) ∧
                       ∃ tr, trace w' = tr ++ [Print Farewell]).
Proof.
  intros Hh. pose proof (iteration_outcome w) as [Hf Hr].
  destruct (iteration w) as [[[] | [e | | code]] w1] eqn:Hit; simpl in *.
  - exists Continue, w1. unfold run_iteration. rewrite Hit. by repeat split.
  - eexists _, _. split; [by apply run_iteration_caught |]. by repeat split.
  - eexists _, _. split; [by apply run_iteration_interrupted |].
    split; [done |]. intros _. split; [done |]. by eexists.
  - done.
Qed.

Lemma handlers_complete_faults w w' :
  faults w' = faults w → handlers_complete w → handlers_complete w'.
Proof. unfold handlers_complete. by intros ->. Qed.

Lemma loop_outcome fuel : ∀ w,
  handlers_complete w →
  ∃ s w', loop fuel w = (Ret s, w') ∧
          (s = Stopped → (∃ k c, faults w k c = Some Interrupted) ∧
                         ∃ tr, trace w' = tr ++ [Print Farewell]).
Proof.
  induction fuel as [| fuel IH]; intros w Hh; simpl.
  - by exists Running, w.
  - unfold bind.
    destruct (run_iteration_outcome w Hh) as (c & w1 & -> & Hf & Hbreak).
    destruct c.
    + destruct (IH w1) as (s & w2 & -> & Hstop);
        [by eapply handlers_complete_faults |].
      exists s, w2. split; [done |]. intros Hs.
      destruct (Hstop Hs) as [(k & c & Hk) Htr]. split; [| done].
      exists k, c. by rewrite <- Hf.
    + exists Stopped, w1. split; [done |]. intros _. by apply Hbreak.
Qed.
End loop.

(** X19.  Provided the calls made by the two [except] clauses themselves
    complete:
    - an [Exception] raised by the body of a turn is logged, followed by a
      5-second sleep, and the loop goes on with its next turn from the
      state the handler leaves;
    - a turn whose body returns is followed by the next turn;
    - a [KeyboardInterrupt] raised by the body prints the farewell and
      leaves the loop;
    - after any number of turns the loop is still running or has stopped,
      never left by an exception; it has stopped only if the user
      interrupted, and then the farewell is the last line printed;
    - if the user never interrupts, the loop is still running after any
      number of turns. *)
Theorem loop_survives_errors w :
  handlers_complete w →
  (∀ e w1, iteration w = (Raise (Exception e), w1) →
     ∃ w2, run_iteration w = (Ret Continue, w2) ∧ self w2 = self w1 ∧
           trace w2 = trace w1 ++ [Print (LoopError e); Sleep 5] ∧
           ∀ fuel, loop (S fuel) w = loop fuel w2) ∧
  (∀ w1, iteration w = (Ret (), w1) →
     run_iteration w = (Ret Continue, w1) ∧
     ∀ fuel, loop (S fuel) w = loop fuel w1) ∧
  (∀ w1, iteration w = (Raise KeyboardInterrupt, w1) →
     ∃ w2, run_iteration w = (Ret Break, w2) ∧
           trace w2 = trace w1 ++ [Print Farewell] ∧
           ∀ fuel, loop (S fuel) w = (Ret Stopped, w2)) ∧
  (∀ fuel, ∃ s w', loop fuel w = (Ret s, w') ∧
     (s = Stopped → (∃ k c, faults w k c = Some Interrupted) ∧
                    ∃ tr, trace w' = tr ++ [Print Farewell])) ∧
  (uninterrupted w → ∀ fuel, fst (loop fuel w) = Ret Running).
Proof.
  intros Hh. split; [| split; [| split; [| split]]].
  - intros e w1 Hit. eexists. split; [by apply run_iteration_caught |].
    split; [done |]. split; [done |]. intros fuel. simpl. unfold bind.
    by rewrite (run_iteration_caught _ _ _ Hh Hit).
  - intros w1 Hit.
    assert (run_iteration w = (Ret Continue, w1)) as Hrun
      by (unfold run_iteration; by rewrite Hit).
    split; [done |]. intros fuel. simpl. unfold bind. by rewrite Hrun.
  - intros w1 Hit. eexists. split; [by apply run_iteration_interrupted |].
    split; [done |]. intros fuel. simpl. unfold bind.
    by rewrite (run_iteration_interrupted _ _ Hh Hit).
  - intros fuel. by apply loop_outcome.
  - intros Hun fuel. destruct (loop_outcome fuel w Hh) as (s & w' & -> & Hstop).
    simpl. destruct s; [| done].
    destruct (Hstop eq_refl) as [(k & c & Hk) _]. by destruct (Hun k c).
Qed.

Lemma loop_survives_errors_witness :
  let w := example_machine (example_timer example_times ∅) (DateTime 739558 18 0 0 0)
             (DateTime 739558 18 0 0 0) broken_console in
  ∃ w2, run_iteration w = (Ret Continue, w2) ∧
        trace w2 = [Print (LoopError (OSError "Broken pipe")); Sleep 5] ∧
        loop 2 w = loop 1 w2.
Proof.
  intros w.
  assert (handlers_complete w) as Hh by (intros k; repeat split).
  destruct (loop_survives_errors w Hh) as [Hcaught _].
  destruct (Hcaught (OSError "Broken pipe") (snd (iteration w)))
    as (w2 & Hrun & _ & Htr & Hnext); [vm_compute; reflexivity |].
  exists w2. split; [exact Hrun |]. split; [| exact (Hnext 1%nat)].
  rewrite Htr. vm_compute. reflexivity.
Defined.

(** C9.  The pause after an error is taken inside the [except] clause, where
    no clause handles an interrupt.  With a schedule whose times do not
    parse, the body of a turn raises [ValueError] and the error is logged;
    the user presses Ctrl+C during [time.sleep(5)]: [KeyboardInterrupt]
    leaves the turn and the loop, whatever number of turns was to follow,
    and the farewell has not been printed. *)
Theorem interrupt_in_cooldown_escapes :
  let now := DateTime 739558 18 0 0 0 in
  let w := example_machine (example_timer zoned_times ∅) now now
             interrupt_in_cooldown in
  fst (iteration w) = Raise (Exception ValueError) ∧
  fst (run_iteration w) = Raise KeyboardInterrupt ∧
  trace (snd (run_iteration w)) = [Print (LoopError ValueError)] ∧
  ∀ fuel, fst (loop (S fuel) w) = Raise KeyboardInterrupt ∧
          trace (snd (loop (S fuel) w)) = [Print (LoopError ValueError)].
Proof.
  intros now w.
  assert (∃ w', run_iteration w = (Raise KeyboardInterrupt, w') ∧
                trace w' = [Print (LoopError ValueError)]) as (w' & Hrun & Htr)
    by (eexists; split; reflexivity).
  split; [reflexivity |]. rewrite Hrun. split; [done |]. split; [done |].
  intros fuel. simpl. unfold bind. by rewrite Hrun.
Qed.

(** The error line itself cannot be written: the failure of the handler's
    [print] is handled by no clause either. *)
Lemma failure_in_handler_escapes :
  let now := DateTime 739558 18 0 0 0 in
  let w := example_machine (example_timer example_times ∅) now now console_lost in
  fst (iteration w) = Raise (Exception (OSError "Broken pipe")) ∧
  ∀ fuel, fst (loop (S fuel) w) = Raise (Exception (OSError "Broken pipe")) ∧
          trace (snd (loop (S fuel) w)) = [].
Proof.
  intros now w.
  assert (∃ w', run_iteration w = (Raise (Exception (OSError "Broken pipe")), w') ∧
                trace w' = []) as (w' & Hrun & Htr)
    by (eexists; split; reflexivity).
  split; [reflexivity |]. intros fuel. simpl. unfold bind. by rewrite Hrun.
Qed.

Section quiet_runs.
Implicit Types (w : machine) (t : PrayerTimer).

Lemma returns_bind {A B} (m : M A) (f : A → M B) w a t evs b t' evs' :
  returns m w a t evs →
  (∀ w1, self w1 = t → faults w1 = faults w → returns (f a) w1 b t' evs') →
  returns (bind m f) w b t' (evs ++ evs').
Proof.
  intros (w1 & Hm & Hs & Hf & Htr) Hk.
  destruct (Hk w1 Hs Hf) as (w2 & Hfa & Hs' & Hf' & Htr').
  exists w2. unfold bind. rewrite Hm, Hfa.
  repeat split; try congruence.
  by rewrite Htr', Htr, app_assoc.
Qed.

Lemma returns_ret {A} (a : A) w t : self w = t → returns (ret a) w a t [].
Proof. intros <-. exists w. repeat split. by rewrite app_nil_r. Qed.

Lemma returns_lift {A} (r : error + A) a w t :
  self w = t → r = inr a → returns (lift r) w a t [].
Proof. intros Hs ->. by apply returns_ret. Qed.

Lemma returns_get_self w t : self w = t → returns get_self w t t [].
Proof. intros <-. exists w. repeat split. by rewrite app_nil_r. Qed.

Lemma returns_method {A} (f : PrayerTimer → A * PrayerTimer) w t :
  self w = t → returns (method f) w (fst (f t)) (snd (f t)) [].
Proof.
  intros <-. unfold returns, method. destruct (f (self w)) as [a t]. eexists.
  split; [done |]. simpl. repeat split. by rewrite app_nil_r.
Qed.

Lemma returns_datetime_now w t :
  self w = t → returns datetime_now w (clock w (ticks w)) t [].
Proof.
  intros <-. eexists. split; [done |]. simpl. repeat split. by rewrite app_nil_r.
Qed.

Lemma returns_io c w t : quiet w → self w = t → returns (io c) w () t [c].
Proof. intros Hq <-. eexists. split; [by apply io_completes |]. done. Qed.

Lemma quiet_faults w w1 : faults w1 = faults w → quiet w → quiet w1.
Proof. unfold quiet. by intros ->. Qed.
End quiet_runs.

(** Runs a sequence of steps whose outcome is known, one [bind] at a time. *)
Ltac still_quiet := eapply quiet_faults; [| eassumption]; congruence.

Ltac run_with tac :=
  repeat (eapply returns_bind; [| intros ? ? ?]);
  try (first
    [ apply returns_get_self; eassumption
    | eapply returns_method; eassumption
    | apply returns_datetime_now; eassumption
    | apply returns_io; [still_quiet | eassumption]
    | apply returns_ret; eassumption
    | eapply returns_lift; [eassumption | tac]
    | tac ]).

Section quiet_engine.
Implicit Types (w : machine) (t : PrayerTimer).

Lemma returns_display_rows prayers t :
  (∀ p, p ∈ prayers → ∃ v, getitem (prayer_times t) p = inr v) →
  ∃ rows, Forall (λ c, is_table_line c = true) rows ∧
          ∀ w, quiet w → self w = t → returns (display_rows prayers) w () t rows.
Proof.
  induction prayers as [| p ps IH]; intros Hrows; simpl.
  - exists []. split; [constructor |]. intros w _ Hs. by apply returns_ret.
  - destruct (Hrows p) as [v Hv]; [constructor |].
    destruct IH as (rows & Hall & Hret).
    { intros q Hin. apply Hrows. by constructor. }
    exists ([] ++ [] ++ [Print (TableRow p v)] ++ rows). split.
    + simpl. by constructor.
    + intros w Hq Hs. run_with ltac:(exact Hv).
      apply Hret; [still_quiet | congruence].
Qed.

Lemma returns_display_prayer_times t :
  config_ok (config t) → well_formed (prayer_times t) →
  ∀ w, quiet w → self w = t →
  ∃ table, Forall (λ c, is_table_line c = true) table ∧
           returns display_prayer_times w () t table.
Proof.
  intros Hcfg Hwf w Hq Hs.
  destruct (Hcfg "city") as [cty Hcty]; [repeat constructor |].
  destruct (Hcfg "country") as [ctr Hctr]; [repeat constructor |].
  destruct (returns_display_rows PRAYERS t) as (rows & Hall & Hrows).
  { intros p Hp. destruct (Hwf p Hp) as [d (v & Hv & _)%time_of_Some]. eauto. }
  exists ([] ++ [Print RuleAfterBlank] ++ [Print (TableTitle (clock w (ticks w)))]
          ++ [] ++ [] ++ [] ++ [Print (TableLocation cty ctr)] ++ [Print Rule]
          ++ rows ++ [Print RuleThenBlank]).
  split.
  - simpl. repeat constructor. apply Forall_app. split; [done | by repeat constructor].
  - unfold display_prayer_times.
    run_with ltac:(first [exact Hcty | exact Hctr]).
    apply Hrows; [still_quiet | done].
Qed.

Lemma returns_play_azan t :
  config_ok (config t) →
  ∀ w, quiet w → self w = t → returns play_azan w () t [PlayAzan].
Proof.
  intros Hcfg w Hq Hs.
  destruct (Hcfg "azan_file") as [f Hf]; [repeat constructor |].
  destruct (Hcfg "use_default_azan") as [u Hu]; [repeat constructor |].
  unfold play_azan.
  change [PlayAzan] with ([] ++ [] ++ [] ++ [PlayAzan]).
  run_with ltac:(first [exact Hf | exact Hu]).
Qed.

Lemma should_announce_flag m t :
  current_prayer_announced (snd (should_announce m t)) = current_prayer_announced t.
Proof. unfold should_announce. by repeat case_bool_decide. Qed.

(** The tail of the loop body: the flag is not touched; at most one
    announcement, then the one-second sleep. *)
Lemma returns_announce_and_wait name total_minutes t w :
  quiet w → self w = t →
  ∃ t' said, returns
    (fires ← method (should_announce total_minutes);
     (if fires : bool
      then text_to_speech (announcement total_minutes name)
      else ret ());;
     sleep 1) w () t' (said ++ [Sleep 1]) ∧
    current_prayer_announced t' = current_prayer_announced t ∧
    (said = [] ∨ said = [Print (Announcement (announcement total_minutes name))]).
Proof.
  intros Hq Hs.
  destruct (should_announce total_minutes t) as [fires t'] eqn:Hsa.
  exists t', (if fires then [Print (Announcement (announcement total_minutes name))]
              else []).
  split; [| split].
  - change (?l ++ [Sleep 1]) with ([] ++ l ++ [Sleep 1]).
    eapply returns_bind.
    { eapply returns_method. exact Hs. }
    rewrite Hsa. simpl. intros w1 Hs1 Hf1.
    eapply returns_bind.
    + destruct fires.
      * apply returns_io; [still_quiet | exact Hs1].
      * by apply returns_ret.
    + intros w2 Hs2 Hf2. apply returns_io; [still_quiet | exact Hs2].
  - pose proof (should_announce_flag total_minutes t) as Hflag.
    by rewrite Hsa in Hflag.
  - destruct fires; auto.
Qed.
End quiet_engine.

Section deadline.
Implicit Types (w : machine) (t : PrayerTimer).

Lemma iteration_run w name instant hours minutes seconds :
  quiet w →
  fst (get_next_prayer w) = Ret (Some name, Some instant) →
  time_remaining instant (clock w (S (ticks w))) = (hours, minutes, seconds) →
  iteration w =
    countdown_step name hours minutes seconds
      (Machine (self w) (clock w) (S (S (ticks w))) (faults w) (S (calls w))
         (trace w ++ [Print (Countdown name instant
                               (format_time_remaining hours minutes seconds))])).
Proof.
  intros Hq Hnext Hrem.
  rewrite get_next_prayer_run in Hnext. simpl in Hnext.
  destruct (next_prayer_at _ _) as [| r] eqn:Hat; [done |].
  injection Hnext as ->.
  destruct (next_prayer_at_name _ _ _ Hat) as (? & ? & [= <- <-] & Hname).
  apply prayer_name_nonempty in Hname.
  unfold iteration, bind at 1. rewrite get_next_prayer_run, Hat.
  rewrite bool_decide_eq_false_2 by done.
  unfold bind at 1. unfold get_time_remaining, bind at 1, datetime_now, ret.
  cbn [ticks clock self faults calls trace]. rewrite Hrem.
  unfold bind at 1. cbn [lift from_option ret].
  unfold bind at 1, print. rewrite io_completes by apply Hq.
  reflexivity.
Qed.

Lemma returns_deadline name t w :
  config_ok (config t) → well_formed (prayer_times t) →
  current_prayer_announced t = false →
  quiet w → self w = t →
  ∃ table,
    Forall (λ c, is_table_line c = true) table ∧
    returns (countdown_step name 0 0 0) w ()
      (Timer (config t) (prayer_times t) ∅ true)
      ([Print BannerTop; Print (ItsTime name); Print RuleThenBlank; PlayAzan]
       ++ table ++ [Sleep 60]).
Proof.
  intros Hcfg Hwf Hflag Hq Hs.
  destruct (returns_io (Print BannerTop) w t Hq Hs) as (w1 & E1 & Hs1 & Hf1 & Ht1).
  assert (quiet w1) as Hq1 by still_quiet.
  destruct (returns_io (Print (ItsTime name)) w1 t Hq1 Hs1)
    as (w2 & E2 & Hs2 & Hf2 & Ht2).
  assert (quiet w2) as Hq2 by still_quiet.
  destruct (returns_io (Print RuleThenBlank) w2 t Hq2 Hs2)
    as (w3 & E3 & Hs3 & Hf3 & Ht3).
  assert (quiet w3) as Hq3 by still_quiet.
  destruct (returns_play_azan t Hcfg w3 Hq3 Hs3) as (w4 & E4 & Hs4 & Hf4 & Ht4).
  assert (quiet w4) as Hq4 by still_quiet.
  destruct (returns_display_prayer_times t Hcfg Hwf w4 Hq4 Hs4)
    as (table & Hall & (w5 & E5 & Hs5 & Hf5 & Ht5)).
  assert (quiet w5) as Hq5 by still_quiet.
  destruct (returns_method mark_announced w5 t Hs5) as (w6 & E6 & Hs6 & Hf6 & Ht6).
  assert (quiet w6) as Hq6 by still_quiet.
  destruct (returns_io (Sleep 60) w6 _ Hq6 Hs6) as (w7 & E7 & Hs7 & Hf7 & Ht7).
  exists table. split; [done |]. exists w7.
  split; [| split; [done | split; [congruence |]]].
  - unfold countdown_step. simpl.
    unfold bind at 1, get_self. simpl. rewrite Hs, Hflag. simpl.
    unfold print, sleep, bind.
    by rewrite E1, E2, E3, E4, E5, E6, E7.
  - rewrite Ht7, Ht6, Ht5, Ht4, Ht3, Ht2, Ht1. by rewrite <- !app_assoc.
Qed.

Lemma returns_after_deadline name t w :
  current_prayer_announced t = true → quiet w → self w = t →
  returns (countdown_step name 0 0 0) w () t [Sleep 1].
Proof.
  intros Hflag Hq Hs.
  pose proof (should_announce_ineligible 0 t
                (outside_not_eligible 0 ltac:(by left))) as Hnever.
  unfold returns, countdown_step. simpl.
  unfold bind at 1, get_self. rewrite Hs, Hflag.
  change (0 * 60 + 0) with 0. cbn [negb].
  unfold bind at 1, method. rewrite Hs, Hnever.
  unfold bind, ret, sleep. rewrite io_completes by (simpl; apply Hq).
  eexists. split; [done |]. done.
Qed.

Lemma returns_before_deadline name hours minutes seconds t w :
  ¬ (hours * 60 + minutes = 0 ∧ seconds = 0) → quiet w → self w = t →
  ∃ t' evs, returns (countdown_step name hours minutes seconds) w () t' evs ∧
            current_prayer_announced t' = false.
Proof.
  intros Hnz Hq Hs.
  destruct (returns_method clear_announced_flag w t Hs) as (w1 & E1 & Hs1 & Hf1 & Ht1).
  assert (quiet w1) as Hq1 by still_quiet.
  destruct (returns_announce_and_wait name (hours * 60 + minutes) _ w1 Hq1 Hs1)
    as (t' & said & (w2 & E2 & Hs2 & Hf2 & Ht2) & Hflag & _).
  exists t', ([] ++ said ++ [Sleep 1]). split; [| done]. exists w2.
  split; [| split; [done | split; [congruence |]]].
  - unfold countdown_step.
    replace (bool_decide (hours * 60 + minutes = 0) && bool_decide (seconds = 0))
      with false.
    + unfold bind at 1. by rewrite E1.
    + symmetry. apply andb_false_iff.
      destruct (decide (hours * 60 + minutes = 0)).
      * right. apply bool_decide_eq_false_2. tauto.
      * left. by apply bool_decide_eq_false_2.
  - rewrite Ht2, Ht1. by rewrite <- app_assoc.
Qed.
End deadline.

(** C2.  One turn of the loop in which every outside call completes, for a
    schedule of five times and a configuration with the entries read.  Let
    [name] and [instant] be what [get_next_prayer] returns and
    [(hours, minutes, seconds)] what [get_time_remaining] then computes.
    - If the three are zero and the deadline flag is off, the turn shows the
      countdown, prints the "it is time" banner once, plays the azan once,
      prints the schedule table, sleeps 60 s, and leaves the flag on and
      the set of fired thresholds empty.
    - If the three are zero and the flag is already on, nothing is announced
      again and the timer is left as it was.
    - If the remaining time is positive (more generally, not zero), the
      turn leaves the flag off. *)
Theorem deadline_crossing w name instant hours minutes seconds :
  quiet w → config_ok (config (self w)) → well_formed (prayer_times (self w)) →
  fst (get_next_prayer w) = Ret (Some name, Some instant) →
  time_remaining instant (clock w (S (ticks w))) = (hours, minutes, seconds) →
  let shown := Print (Countdown name instant
                        (format_time_remaining hours minutes seconds)) in
  let w' := snd (iteration w) in
  (hours = 0 ∧ minutes = 0 ∧ seconds = 0 →
   current_prayer_announced (self w) = false →
   fst (iteration w) = Ret () ∧
   (∃ table,
      Forall (λ c, is_table_line c = true) table ∧
      trace w' = trace w ++
        [shown; Print BannerTop; Print (ItsTime name); Print RuleThenBlank; PlayAzan]
        ++ table ++ [Sleep 60]) ∧
   current_prayer_announced (self w') = true ∧
   announced_intervals (self w') = ∅) ∧
  (hours = 0 ∧ minutes = 0 ∧ seconds = 0 →
   current_prayer_announced (self w) = true →
   fst (iteration w) = Ret () ∧ trace w' = trace w ++ [shown; Sleep 1] ∧
   self w' = self w) ∧
  (hours * 3600 + minutes * 60 + seconds ≠ 0 →
   fst (iteration w) = Ret () ∧ current_prayer_announced (self w') = false).
Proof.
  intros Hq Hcfg Hwf Hnext Hrem shown w'.
  pose proof (iteration_run w name instant hours minutes seconds Hq Hnext Hrem) as Hit.
  fold shown in Hit. subst w'. rewrite Hit.
  set (w1 := Machine _ _ _ _ _ _).
  assert (quiet w1) as Hq1 by exact Hq.
  assert (self w1 = self w) as Hs1 by reflexivity.
  split; [| split].
  - intros (-> & -> & ->) Hflag.
    destruct (returns_deadline name (self w) w1 Hcfg Hwf Hflag Hq1 Hs1)
      as (table & Hall & (w2 & -> & Hs2 & _ & Ht2)).
    simpl. split; [done |]. split; [| by rewrite Hs2].
    exists table. split; [done |]. rewrite Ht2. simpl. by rewrite <- app_assoc.
  - intros (-> & -> & ->) Hflag.
    destruct (returns_after_deadline name (self w) w1 Hflag Hq1 Hs1)
      as (w2 & -> & Hs2 & _ & Ht2).
    simpl. split; [done |]. split; [| done].
    rewrite Ht2. simpl. by rewrite <- app_assoc.
  - intros Hpos.
    destruct (returns_before_deadline name hours minutes seconds (self w) w1)
      as (t' & evs & (w2 & -> & Hs2 & _) & Hflag); [lia | done | done |].
    simpl. by rewrite Hs2.
Qed.

Lemma example_config_ok : config_ok example_config.
Proof.
  intros k Hin.
  repeat (apply elem_of_cons in Hin as [-> | Hin]; [by eexists |]).
  by apply elem_of_nil in Hin.
Qed.

Lemma deadline_crossing_witness :
  let w := example_machine (example_timer example_times {[30; 5; 1]})
             (DateTime 739558 18 59 59 500000) (DateTime 739558 18 59 59 600000)
             no_faults in
  fst (iteration w) = Ret () ∧
  current_prayer_announced (self (snd (iteration w))) = true ∧
  announced_intervals (self (snd (iteration w))) = ∅.
Proof.
  intros w.
  destruct (deadline_crossing w "Maghrib" (DateTime 739558 19 0 0 0) 0 0 0)
    as [Hfire _].
  - intros k c. reflexivity.
  - exact example_config_ok.
  - exact example_times_well_formed.
  - vm_compute. reflexivity.
  - vm_compute. reflexivity.
  - destruct Hfire as (Hret & _ & Hflag & Hset); [done | reflexivity |].
    exact (conj Hret (conj Hflag Hset)).
Defined.

Section location.
(** A failed lookup leaves the [try] without a location: by an exception,
    or by falling out of the [if]. *)
Lemma locate_failure r w :
  lookup_failure r →
  locate r w = (Ret None, w) ∨ ∃ e, locate r w = (Raise (Exception e), w).
Proof.
  intros Hfail. unfold locate, bind, request_json, lift, ret, raise.
  destruct Hfail as [e | | data e Hst | data v Hst Hne | data k e Hk Hmiss].
  - right. by exists e.
  - right. by exists ValueError.
  - right. exists e. by rewrite Hst.
  - left. by rewrite Hst, Hne.
  - destruct (getitem data "status") as [e0 | v]; [right; by exists e0 |].
    destruct (py_eq_str v "success"); [| by left]. right.
    destruct (getitem data "lat") as [e1 | lat] eqn:Hlat; [by exists e1 |].
    destruct (getitem data "lon") as [e2 | lon] eqn:Hlon; [by exists e2 |].
    destruct (getitem data "city") as [e3 | cty] eqn:Hcity; [by exists e3 |].
    destruct (getitem data "country") as [e4 | ctr] eqn:Hctr; [by exists e4 |].
    exfalso.
    repeat (apply elem_of_cons in Hk as [-> | Hk]; [congruence |]).
    by apply elem_of_nil in Hk.
Qed.
End location.

(** C8.  When the geolocation lookup fails (the request raises, the body is
    not JSON, there is no status, the status is not ['success'], or a field
    is missing) and the console can be written to, [detect_location]
    returns Mecca at latitude 21.4225 and longitude 39.8262; it leaves the
    timer alone and its last line is the notice that the default is
    used. *)
Theorem detect_location_falls_back r w :
  quiet w → lookup_failure r →
  ∃ w' said,
    detect_location r w =
      (Ret (Location (JFloat (Q2Qc 21.4225%Q)) (JFloat (Q2Qc 39.8262%Q))
                     (JStr "Mecca") (JStr "Saudi Arabia")), w') ∧
    self w' = self w ∧
    trace w' = trace w ++ said ++ [Print UsingDefaultLocation] ∧
    (said = [] ∨ ∃ e, said = [Print (LocationFailed e)]).
Proof.
  intros Hq Hfail. unfold detect_location, try_except, bind at 1.
  destruct (locate_failure r w Hfail) as [-> | [e ->]].
  - unfold bind, print, ret. rewrite io_completes by apply Hq.
    eexists _, []. split; [done |]. simpl. auto.
  - unfold bind, print, ret. rewrite io_completes by apply Hq.
    rewrite io_completes by (simpl; apply Hq).
    eexists _, [_]. split; [done |]. simpl. split; [done |].
    split; [by rewrite <- app_assoc | eauto].
Qed.

Lemma detect_location_falls_back_witness :
  let w := example_machine (example_timer JNull ∅) (DateTime 739558 8 0 0 0)
             (DateTime 739558 8 0 0 0) no_faults in
  let r := BodyJson (JObj (<["status" := JStr "fail"]>
                          (<["message" := JStr "reserved range"]> ∅))) in
  fst (detect_location r w) = Ret mecca ∧
  fst (detect_location (RequestRaised (RequestError "timed out")) w) = Ret mecca.
Proof.
  intros w r. split.
  - destruct (detect_location_falls_back r w) as (w' & said & -> & _).
    + intros k c. reflexivity.
    + by eapply status_not_success.
    + reflexivity.
  - destruct (detect_location_falls_back (RequestRaised (RequestError "timed out")) w)
      as (w' & said & -> & _).
    + intros k c. reflexivity.
    + constructor.
    + reflexivity.
Defined.

(** What [fetch_prayer_times] does with the failures that raise. *)
Lemma fetch_prayer_times_raises r w lat lon meth e :
  quiet w →
  getitem (config (self w)) "latitude" = inr lat →
  getitem (config (self w)) "longitude" = inr lon →
  getitem (config (self w)) "method" = inr meth →
  (r = RequestRaised e ∨ (r = BodyNotJson ∧ e = ValueError) ∨
   ∃ data, r = BodyJson data ∧
     (getitem data "code" = inl e ∨
      ∃ code, getitem data "code" = inr code ∧ py_eq_int code 200 = true ∧
        (getitem data "data" = inl e ∨
         ∃ d, getitem data "data" = inr d ∧
           (getitem d "timings" = inl e ∨
            ∃ timings, getitem d "timings" = inr timings ∧
                       pick_timings timings PRAYERS ∅ = inl e)))) →
  ∃ w', fetch_prayer_times r w = (Raise (SystemExit 1), w') ∧
        trace w' = trace w ++ [Print (FetchFailed e)].
Proof.
  intros Hq Hlat Hlon Hmeth Hcases.
  unfold fetch_prayer_times, bind at 1 2, get_self, ret.
  unfold bind at 1. rewrite Hlat. unfold lift at 1, ret.
  unfold bind at 1. rewrite Hlon. unfold lift at 1, ret.
  unfold bind at 1. rewrite Hmeth. unfold lift at 1, ret.
  unfold bind at 1, datetime_now. unfold try_except.
  assert (∀ w1 : machine, faults w1 = faults w → trace w1 = trace w →
            ∃ w', (print (FetchFailed e);; @raise json (SystemExit 1)) w1
                    = (Raise (SystemExit 1), w') ∧
                  trace w' = trace w ++ [Print (FetchFailed e)]) as Hexit.
  { intros w1 Hf Ht. unfold bind, print, raise.
    rewrite io_completes by (rewrite Hf; apply Hq).
    eexists. split; [done |]. simpl. by rewrite Ht. }
  unfold bind at 1, request_json.
  destruct Hcases as [-> | [[-> ->] | (data & -> & Hdata)]];
    [by apply Hexit | by apply Hexit |].
  unfold lift, bind, raise, ret.
  destruct Hdata as [-> | (code & -> & Hok & Hdata)]; [by apply Hexit |].
  cbn beta iota. rewrite Hok.
  destruct Hdata as [-> | (d & -> & Hdata)]; [by apply Hexit |].
  cbn beta iota.
  destruct Hdata as [-> | (timings & -> & Hpick)]; [by apply Hexit |].
  cbn beta iota. rewrite Hpick. by apply Hexit.
Qed.

(** C7.  The reply [{"code": 400, ...}] of the prayer-times service:
    [fetch_prayer_times] reports nothing and does not exit; it returns
    [None].  [run] then stores [None] as the schedule and dies in
    [display_prayer_times] on a [TypeError], the fetch failure never having
    been reported. *)
Theorem fetch_bad_request_not_fatal :
  let w := example_machine (Timer example_config JNull ∅ false)
             (DateTime 739558 8 0 0 0) (DateTime 739558 8 0 0 1) no_faults in
  fst (fetch_prayer_times bad_request_reply w) = Ret JNull ∧
  trace (snd (fetch_prayer_times bad_request_reply w)) = [] ∧
  ∀ fuel,
    fst (run bad_request_reply fuel w) = Raise (Exception TypeError) ∧
    trace (snd (run bad_request_reply fuel w)) =
      [Print Title; Print Rule; Print RuleAfterBlank;
       Print (TableTitle (DateTime 739558 8 0 0 1));
       Print (TableLocation (JStr "Mecca") (JStr "Saudi Arabia")); Print Rule].
Proof.
  intros w. split; [by vm_compute |]. split; [by vm_compute |].
  intros fuel. split.
  - unfold run. by vm_compute.
  - by vm_compute.
Qed.

Section remaining_time.
Implicit Types target now : datetime.

Lemma time_remaining_parts target now :
  let total := int_total_seconds (dt_sub target now) in
  time_remaining target now =
    (total `div` 3600, (total `mod` 3600) `div` 60, total `mod` 60).
Proof. reflexivity. Qed.

Lemma decomposition_bounds total :
  0 ≤ (total `mod` 3600) `div` 60 < 60 ∧ 0 ≤ total `mod` 60 < 60 ∧
  total `div` 3600 * 3600 + (total `mod` 3600) `div` 60 * 60 + total `mod` 60
    = total.
Proof.
  assert ((total `mod` 3600) `mod` 60 = total `mod` 60) as Hmm.
  { apply Z.mod_mod_divide. exists 60. lia. }
  pose proof (Z.mod_pos_bound total 3600 ltac:(lia)).
  pose proof (Z.mod_pos_bound total 60 ltac:(lia)).
  pose proof (Z.div_mod total 3600 ltac:(lia)).
  pose proof (Z.div_mod (total `mod` 3600) 60 ltac:(lia)).
  repeat split; lia.
Qed.

(** X1.  [get_time_remaining] computes (0, 0, 0) exactly when the target
    is less than one second away, on either side: [int] truncates toward
    zero, so the last second before the instant and the first second
    after it both read as zero. *)
Theorem time_remaining_zero_window target now :
  time_remaining target now = (0, 0, 0) ↔
  -1000000 < dt_sub target now < 1000000.
Proof.
  rewrite time_remaining_parts. cbv zeta.
  set (total := int_total_seconds (dt_sub target now)).
  pose proof (decomposition_bounds total) as (_ & _ & Hsum).
  assert (total = 0 ↔ -1000000 < dt_sub target now < 1000000) as <-
    by apply int_total_seconds_zero.
  split.
  - intros [= Hh Hm Hs]. lia.
  - intros ->. reflexivity.
Qed.

(** X2.  Whatever the two instants, the minutes and seconds computed by
    [get_time_remaining] lie in [0, 60); for a target a second or more in
    the past the hours are negative (one second late reads (-1, 59, 59)),
    and only then; and when the two instants are less than [2^34] seconds
    (some 544 years) apart, the three parts add up to the difference in
    seconds truncated toward zero.  (Further apart, the float of
    [total_seconds] no longer holds the microseconds.) *)
Theorem time_remaining_any target now :
  ∃ hours minutes seconds,
    time_remaining target now = (hours, minutes, seconds) ∧
    0 ≤ minutes < 60 ∧ 0 ≤ seconds < 60 ∧
    (hours < 0 ↔ dt_sub target now ≤ -1000000) ∧
    (- (2 ^ 34 * 1000000) < dt_sub target now < 2 ^ 34 * 1000000 →
     hours * 3600 + minutes * 60 + seconds
       = dt_sub target now `quot` 1000000).
Proof.
  rewrite time_remaining_parts. cbv zeta.
  set (total := int_total_seconds (dt_sub target now)).
  pose proof (decomposition_bounds total) as (Hm & Hs & Hsum).
  eexists _, _, _. split; [reflexivity |].
  split; [done |]. split; [done |]. split.
  - assert (total < 0 ↔ dt_sub target now ≤ -1000000) as <-
      by apply int_total_seconds_neg.
    lia.
  - change (2 ^ 34 * 1000000) with 17179869184000000. intros Hspan.
    rewrite Hsum. subst total. apply int_total_seconds_quot. lia.
Qed.
End remaining_time.

Lemma time_remaining_any_witness :
  time_remaining (DateTime 739558 12 0 0 0) (DateTime 739558 12 0 1 0)
    = (-1, 59, 59) ∧
  -1 * 3600 + 59 * 60 + 59 = (-1000000) `quot` 1000000.
Proof.
  destruct (time_remaining_any (DateTime 739558 12 0 0 0) (DateTime 739558 12 0 1 0))
    as (hours & minutes & seconds & Heq & _ & _ & _ & Hsum).
  vm_compute in Heq. injection Heq as <- <- <-.
  split; [reflexivity |]. apply Hsum. vm_compute. split; reflexivity.
Defined.

(** X3.  The countdown text stands for the triple it was made from exactly
    when the hours are positive, or zero with non-negative minutes; with
    negative hours (a target already passed) the hours are silently
    dropped. *)
Theorem format_time_remaining_faithful hours minutes seconds :
  shown_time (format_time_remaining hours minutes seconds)
    = (hours, minutes, seconds)
  ↔ 0 < hours ∨ (hours = 0 ∧ 0 ≤ minutes).
Proof.
  unfold format_time_remaining. repeat case_bool_decide; simpl.
  - split; [intros _; left; lia | done].
  - split; [intros [= <-]; right; lia | intros [? | [-> _]]; [lia | done]].
  - split; [intros [= <- <-]; right; lia |].
    intros [? | [-> ?]]; [lia |]. do 2 f_equal. lia.
Qed.

(** X4.  The numbers spoken in an announcement always make up the minutes
    it was built from, with the prayer's name: whole hours and minutes from
    sixty minutes on (the minutes left out when they are zero), minutes
    alone below. *)
Theorem announcement_faithful total_minutes prayer_name :
  spoken_minutes (announcement total_minutes prayer_name)
    = (total_minutes, prayer_name) ∧
  match announcement total_minutes prayer_name with
  | HoursAndMinutesUntil hours_msg mins_msg _ =>
      60 ≤ total_minutes ∧ 1 ≤ hours_msg ∧ 0 < mins_msg < 60
  | HoursUntil hours_msg _ => 60 ≤ total_minutes ∧ 1 ≤ hours_msg
  | MinutesUntil _ _ => total_minutes < 60
  end.
Proof.
  unfold announcement.
  pose proof (Z.mod_pos_bound total_minutes 60 ltac:(lia)).
  pose proof (Z.div_mod total_minutes 60 ltac:(lia)).
  repeat case_bool_decide; simpl; (split; [f_equal; lia | lia]).
Qed.

Section next_prayer_more.
Implicit Types (times : json) (now d e : datetime) (ps : list string).

(** The scan passes over the prayers that are not later than [now]. *)
Lemma scan_prayers_skip times now pre rest :
  (∀ q, q ∈ pre → ∃ e, time_of times q = Some e ∧
                       dt_gt (replace_date e now) now = false) →
  scan_prayers times now (pre ++ rest) = scan_prayers times now rest.
Proof.
  induction pre as [| q pre IH]; intros Hpre; [done |].
  destruct (Hpre q) as (e & He & Hgt); [constructor |].
  rewrite <- app_comm_cons, (scan_prayers_cons _ _ _ _ _ He), Hgt.
  apply IH. intros q' Hq'. apply Hpre. by constructor.
Qed.
End next_prayer_more.

(** X5.  For a schedule of five times and a valid clock reading before
    9999-12-31, the last day a [datetime] can hold, the instant
    [get_next_prayer] returns is in the future by at most 24 hours; so for
    any later reading of the clock [get_time_remaining] gives at most 24
    hours. *)
Theorem next_prayer_within_a_day w :
  let now := clock w (ticks w) in
  valid_datetime now → ordinal now < 3652059 →
  well_formed (prayer_times (self w)) →
  ∃ name instant,
    fst (get_next_prayer w) = Ret (Some name, Some instant) ∧
    0 < to_us instant - to_us now ≤ 86400000000 ∧
    ∀ later, to_us now ≤ to_us later →
      ∃ hours minutes seconds,
        time_remaining instant later = (hours, minutes, seconds) ∧ hours ≤ 24.
Proof.
  intros now Hnow Hday Hwf. pose proof Hnow as (Hord & _).
  rewrite get_next_prayer_run. simpl. fold now.
  assert (∃ name instant,
            next_prayer_at (prayer_times (self w)) now
              = inr (Some name, Some instant) ∧
            0 < to_us instant - to_us now ≤ 86400000000)
    as (name & instant & -> & Hbound).
  { destruct (next_prayer_at_cases (prayer_times (self w)) now Hwf)
      as [(i & name & d & _ & Hd & Hgt & _ & ->) | (Hnone & d & Hd & ->)].
    - eexists _, _. split; [done |].
      pose proof (time_of_range _ _ _ Hd) as (Hh & Hm & Hs & Hu).
      apply (later_to_us _ _ _ _ Hd Hnow) in Hgt.
      rewrite to_us_replace_date in * by done.
      destruct Hnow as (_ & ? & ? & ? & ?). unfold to_us in *. lia.
    - rewrite add_days_next by lia. eexists _, _. split; [done |].
      pose proof (time_of_range _ _ _ Hd) as (Hh & Hm & Hs & Hu).
      pose proof (not_later_to_us _ _ _ _ Hd Hnow
                    (Hnone "Fajr" d ltac:(constructor) Hd)) as Hpast.
      rewrite to_us_replace_date in Hpast by done.
      rewrite to_us_replace_date by done. simpl.
      destruct Hnow as (_ & ? & ? & ? & ?). unfold to_us in *. lia. }
  exists name, instant. split; [done |].
  split; [done |]. intros later Hlater.
  rewrite time_remaining_parts. cbv zeta. eexists _, _, _. split; [done |].
  rewrite dt_sub_to_us.
  assert (to_us instant - to_us later ≤ 86400000000) as Hle by lia.
  revert Hle. generalize (to_us instant - to_us later). intros delta Hle.
  destruct (Z.le_gt_cases 0 delta) as [Hpos | Hneg].
  - rewrite int_total_seconds_exact by lia. Z.div_mod_to_equations. lia.
  - pose proof (proj2 (int_total_seconds_neg delta)) as Hlt.
    destruct (Z.le_gt_cases delta (-1000000)) as [Hfar | Hnear].
    + specialize (Hlt Hfar). Z.div_mod_to_equations. lia.
    + rewrite (proj2 (int_total_seconds_zero delta)) by lia. done.
Qed.

Lemma next_prayer_within_a_day_witness :
  ∃ name instant,
    fst (get_next_prayer
           (example_machine (example_timer example_times ∅)
              (DateTime 739558 5 0 0 0) (DateTime 739558 5 0 0 1) no_faults))
      = Ret (Some name, Some instant) ∧
    name = "Dhuhr" ∧
    to_us instant - to_us (DateTime 739558 5 0 0 0) = 27000000000.
Proof.
  destruct (next_prayer_within_a_day
              (example_machine (example_timer example_times ∅)
                 (DateTime 739558 5 0 0 0) (DateTime 739558 5 0 0 1) no_faults))
    as (name & instant & Heq & _).
  - unfold valid_datetime. simpl. lia.
  - simpl. lia.
  - exact example_times_well_formed.
  - exists name, instant. split; [exact Heq |].
    vm_compute in Heq. by injection Heq as <- <-.
Defined.




(** X7.  [get_next_prayer] examines the schedule only as far as it has to.
    Let [p] be the first prayer that is not read as a time at or before
    [now]: if [p] reads as a later time it is returned, whatever the state
    of the entries after it; if its entry is missing, that error is raised;
    and so is the error of [strptime] when the entry is not a string or is
    ASCII text that does not read as hours and minutes. *)
Theorem get_next_prayer_reads_lazily w (i : nat) p :
  let now := clock w (ticks w) in
  let times := prayer_times (self w) in
  PRAYERS !! i = Some p →
  (∀ (j : nat) q, (j < i)%nat → PRAYERS !! j = Some q →
     ∃ e, time_of times q = Some e ∧ dt_gt (replace_date e now) now = false) →
  (∀ d, time_of times p = Some d → dt_gt (replace_date d now) now = true →
        fst (get_next_prayer w) = Ret (Some p, Some (replace_date d now))) ∧
  (∀ err, getitem times p = inl err →
          fst (get_next_prayer w) = Raise (Exception err)) ∧
  (∀ v err, getitem times p = inr v → ascii_text v → strptime v = inl err →
            fst (get_next_prayer w) = Raise (Exception err)).
Proof.
  intros now times Hi Hbefore.
  assert (scan_prayers times now PRAYERS
          = scan_prayers times now (p :: drop (S i) PRAYERS)) as Hscan.
  { rewrite <- (take_drop_middle PRAYERS i p Hi) at 1.
    apply scan_prayers_skip. intros q Hq.
    apply list_elem_of_lookup_1 in Hq as [j Hj].
    pose proof (lookup_lt_Some _ _ _ Hj) as Hlen.
    rewrite length_take in Hlen.
    rewrite lookup_take_lt in Hj by lia. apply (Hbefore j q); [lia | done]. }
  rewrite get_next_prayer_run. simpl. fold now times.
  unfold next_prayer_at. rewrite Hscan.
  split; [| split].
  - intros d Hd Hgt. by rewrite (scan_prayers_cons _ _ _ _ _ Hd), Hgt.
  - intros err Herr. simpl. by rewrite Herr.
  - intros v err Hv _ Herr. simpl. by rewrite Hv, Herr.
Qed.

Lemma get_next_prayer_reads_lazily_witness :
  fst (get_next_prayer
         (example_machine (example_timer patchy_times ∅)
            (DateTime 739558 4 0 0 0) (DateTime 739558 4 0 0 1) no_faults))
    = Ret (Some "Fajr", Some (DateTime 739558 5 0 0 0)) ∧
  fst (get_next_prayer
         (example_machine (example_timer patchy_times ∅)
            (DateTime 739558 6 0 0 0) (DateTime 739558 6 0 0 1) no_faults))
    = Raise (Exception ValueError).
Proof.
  split.
  - destruct (get_next_prayer_reads_lazily
                (example_machine (example_timer patchy_times ∅)
                   (DateTime 739558 4 0 0 0) (DateTime 739558 4 0 0 1) no_faults)
                0%nat "Fajr") as (Hret & _).
    + reflexivity.
    + intros j q Hj. lia.
    + apply (Hret (DateTime 693596 5 0 0 0)); reflexivity.
  - destruct (get_next_prayer_reads_lazily
                (example_machine (example_timer patchy_times ∅)
                   (DateTime 739558 6 0 0 0) (DateTime 739558 6 0 0 1) no_faults)
                1%nat "Dhuhr") as (_ & _ & Hbad).
    + reflexivity.
    + intros [| j] q Hj Hq; [| lia]. injection Hq as <-.
      exists (DateTime 693596 5 0 0 0). split; reflexivity.
    + apply (Hbad (JStr "noon") ValueError); reflexivity.
Defined.

Section keeping.
Lemma keeps_ret {A} (a : A) : keeps (ret a).
Proof. intros w. simpl. auto. Qed.

Lemma keeps_raise {A} (x : exn) : keeps (@raise A x).
Proof. intros w. simpl. auto. Qed.

Lemma keeps_lift {A} (r : error + A) : keeps (lift r).
Proof. destruct r; [apply keeps_raise | apply keeps_ret]. Qed.

Lemma keeps_get_self : keeps get_self.
Proof. intros w. simpl. auto. Qed.

Lemma keeps_datetime_now : keeps datetime_now.
Proof. intros w. simpl. auto. Qed.

Lemma keeps_io c : keeps (io c).
Proof. intros w. unfold io. destruct (faults w (calls w) c); simpl; auto. Qed.

Lemma keeps_bind {A B} (m : M A) (f : A → M B) :
  keeps m → (∀ a, keeps (f a)) → keeps (bind m f).
Proof.
  intros Hm Hf w. unfold bind. specialize (Hm w).
  destruct (m w) as [[a | x] w1]; [| done].
  specialize (Hf a w1). destruct (f a w1) as [r w2].
  destruct Hm as (Hc & Hp & Ha). destruct Hf as (Hc' & Hp' & Ha').
  split; [congruence |]. split; [congruence |].
  intros x Hx. destruct (Ha' x Hx) as [Hin | He]; auto.
Qed.

Lemma keeps_method {A} (f : PrayerTimer → A * PrayerTimer) :
  (∀ t, config (snd (f t)) = config t ∧
        prayer_times (snd (f t)) = prayer_times t ∧
        ∀ x, x ∈ announced_intervals (snd (f t)) →
             x ∈ announced_intervals t ∨ eligible x) →
  keeps (method f).
Proof.
  intros Hf w. unfold method. specialize (Hf (self w)).
  by destruct (f (self w)).
Qed.

Lemma keeps_should_announce m : keeps (method (should_announce m)).
Proof.
  apply keeps_method. intros t. split; [| split].
  - unfold should_announce. by repeat case_bool_decide.
  - unfold should_announce. by repeat case_bool_decide.
  - intros x [Hin | [-> He]]%should_announce_announced; auto.
Qed.

Lemma keeps_mark_announced : keeps (method mark_announced).
Proof.
  apply keeps_method. intros t. simpl. split; [done |]. split; [done |].
  by intros x ?%not_elem_of_empty.
Qed.

Lemma keeps_clear_announced_flag : keeps (method clear_announced_flag).
Proof. apply keeps_method. intros t. simpl. auto. Qed.
End keeping.

Ltac keeps_step :=
  first
    [ apply keeps_should_announce | apply keeps_mark_announced
    | apply keeps_clear_announced_flag
    | apply keeps_ret | apply keeps_raise | apply keeps_lift
    | apply keeps_get_self | apply keeps_datetime_now | apply keeps_io
    | apply keeps_bind; [| intros ?] ].

Section keeping_engine.
Lemma keeps_display_rows prayers : keeps (display_rows prayers).
Proof.
  induction prayers as [| prayer rest IH]; simpl; [apply keeps_ret |].
  repeat keeps_step. done.
Qed.

Lemma keeps_display_prayer_times : keeps display_prayer_times.
Proof.
  unfold display_prayer_times, print.
  repeat first [apply keeps_display_rows | keeps_step].
Qed.

Lemma keeps_play_azan : keeps play_azan.
Proof. unfold play_azan. repeat keeps_step. Qed.

Lemma keeps_countdown_step name hours minutes seconds :
  keeps (countdown_step name hours minutes seconds).
Proof.
  unfold countdown_step, text_to_speech, print, sleep.
  assert (∀ (b : bool) c, keeps (if b then io c else ret ())) as Hsay.
  { intros [] c; keeps_step. }
  destruct (_ && _).
  - keeps_step; [keeps_step |].
    destruct (negb _);
      repeat first [apply keeps_play_azan | apply keeps_display_prayer_times
                   | apply Hsay | keeps_step].
  - repeat first [apply Hsay | keeps_step].
Qed.

Lemma keeps_iteration : keeps iteration.
Proof.
  unfold iteration, get_next_prayer, get_time_remaining, print, sleep.
  keeps_step; [repeat keeps_step |].
  destruct a as [[name |] instant]; [| repeat keeps_step].
  case_bool_decide; [repeat keeps_step |].
  keeps_step; [keeps_step; [keeps_step | destruct instant; keeps_step] |].
  destruct a as [[hours minutes] seconds].
  keeps_step; [keeps_step |]. keeps_step; [keeps_step |].
  apply keeps_countdown_step.
Qed.

Lemma keeps_run_iteration : keeps run_iteration.
Proof.
  intros w. unfold run_iteration.
  pose proof (keeps_iteration w) as Hit.
  destruct (iteration w) as [[[] | [e | | code]] w1]; [done | | | done].
  - assert (keeps (print (LoopError e);; sleep 5;; ret Continue)) as Hh
      by (unfold print, sleep; repeat keeps_step).
    specialize (Hh w1).
    destruct ((print (LoopError e);; sleep 5;; ret Continue) w1) as [r w2].
    destruct Hit as (Hc & Hp & Ha). destruct Hh as (Hc' & Hp' & Ha').
    split; [congruence |]. split; [congruence |].
    intros x Hx. destruct (Ha' x Hx); auto.
  - assert (keeps (print Farewell;; ret Break)) as Hh
      by (unfold print; repeat keeps_step).
    specialize (Hh w1). destruct ((print Farewell;; ret Break) w1) as [r w2].
    destruct Hit as (Hc & Hp & Ha). destruct Hh as (Hc' & Hp' & Ha').
    split; [congruence |]. split; [congruence |].
    intros x Hx. destruct (Ha' x Hx); auto.
Qed.

Lemma keeps_loop fuel : keeps (loop fuel).
Proof.
  induction fuel as [| fuel IH]; simpl; [apply keeps_ret |].
  apply keeps_bind; [apply keeps_run_iteration |].
  intros []; [done | apply keeps_ret].
Qed.
End keeping_engine.

(** X8.  Whatever the environment does (failing calls, interrupts, any
    clock), and for any number of turns, the loop of [run] leaves the
    configuration and the schedule exactly as they were when it started
    (the schedule is never fetched again), and any value it adds to the
    announced thresholds is a ladder value or a minute from 1 to 19. *)
Theorem loop_keeps_schedule fuel w :
  config (self (snd (loop fuel w))) = config (self w) ∧
  prayer_times (self (snd (loop fuel w))) = prayer_times (self w) ∧
  ∀ x, x ∈ announced_intervals (self (snd (loop fuel w))) →
       x ∈ announced_intervals (self w) ∨ eligible x.
Proof.
  pose proof (keeps_loop fuel w) as Hk. by destruct (loop fuel w).
Qed.

Section fetching.
(** The comprehension copies the entries of the five prayers and nothing
    else. *)
Lemma pick_timings_spec timings prayers : ∀ acc,
  (∀ p, p ∈ prayers → ∃ v, getitem timings p = inr v) →
  ∃ sched, pick_timings timings prayers acc = inr sched ∧
           (∀ p, p ∈ prayers → getitem (JObj sched) p = getitem timings p) ∧
           (∀ k, k ∉ prayers → sched !! k = acc !! k).
Proof.
  induction prayers as [| p ps IH]; intros acc Hall; simpl.
  - exists acc. split; [done |]. split; [by intros p ?%elem_of_nil | done].
  - destruct (Hall p) as [v Hv]; [constructor |]. rewrite Hv.
    destruct (IH (<[p:=v]> acc)) as (sched & -> & Hin & Hout).
    { intros q Hq. apply Hall. by constructor. }
    exists sched. split; [done |]. split.
    + intros q Hq. destruct (decide (q ∈ ps)) as [Hps | Hps]; [by apply Hin |].
      apply elem_of_cons in Hq as [-> | Hq]; [| done].
      simpl. by rewrite (Hout p Hps), lookup_insert_eq, Hv.
    + intros k [Hne Hk]%not_elem_of_cons.
      by rewrite (Hout k Hk), lookup_insert_ne.
Qed.

Lemma pick_timings_missing timings prayers : ∀ acc p e,
  p ∈ prayers → getitem timings p = inl e →
  ∃ e', pick_timings timings prayers acc = inl e'.
Proof.
  induction prayers as [| q ps IH]; intros acc p e Hp He; simpl.
  - by apply elem_of_nil in Hp.
  - destruct (getitem timings q) as [e' | v] eqn:Hq; [by exists e' |].
    apply elem_of_cons in Hp as [-> | Hp]; [congruence |].
    by eapply IH.
Qed.

Lemma fetch_prayer_times_returns r timings w :
  config_complete (config (self w)) → good_reply r timings →
  (∀ p, p ∈ PRAYERS → ∃ v, getitem timings p = inr v) →
  ∃ sched,
    returns (fetch_prayer_times r) w (JObj sched) (self w) [] ∧
    (∀ p, p ∈ PRAYERS → getitem (JObj sched) p = getitem timings p) ∧
    (∀ k, k ∉ PRAYERS → sched !! k = None).
Proof.
  intros Hcfg (data & code & d & -> & Hcode & Hok & Hdata & Htim) Hall.
  destruct (Hcfg "latitude") as [lat Hlat]; [repeat constructor |].
  destruct (Hcfg "longitude") as [lon Hlon]; [repeat constructor |].
  destruct (Hcfg "method") as [meth Hmeth]; [repeat constructor |].
  destruct (pick_timings_spec timings PRAYERS ∅ Hall) as (sched & Hpick & Hin & Hout).
  exists sched. split; [| split; [done |]].
  - unfold returns, fetch_prayer_times, bind at 1 2, get_self, ret.
    unfold bind at 1. rewrite Hlat. unfold lift at 1, ret.
    unfold bind at 1. rewrite Hlon. unfold lift at 1, ret.
    unfold bind at 1. rewrite Hmeth. unfold lift at 1, ret.
    unfold bind at 1, datetime_now. unfold try_except.
    unfold bind at 1, request_json. unfold lift, bind, raise, ret.
    rewrite Hcode. cbn beta iota. rewrite Hok, Hdata. cbn beta iota.
    rewrite Htim. cbn beta iota. rewrite Hpick.
    eexists. split; [done |]. simpl. by rewrite app_nil_r.
  - intros k Hk. by rewrite (Hout k Hk).
Qed.
End fetching.

(** X9.  A reply with code 200 whose timings hold the five prayers: with a
    configuration holding latitude, longitude and method,
    [fetch_prayer_times] returns a dictionary with exactly the five
    canonical names, each with the value the service sent; any other
    timing of the reply is dropped, nothing is printed and the timer is
    untouched. *)
Theorem fetch_prayer_times_picks_five r timings w :
  config_complete (config (self w)) → good_reply r timings →
  (∀ p, p ∈ PRAYERS → ∃ v, getitem timings p = inr v) →
  ∃ sched w',
    fetch_prayer_times r w = (Ret (JObj sched), w') ∧
    self w' = self w ∧ trace w' = trace w ∧
    (∀ p, p ∈ PRAYERS → getitem (JObj sched) p = getitem timings p) ∧
    (∀ k, k ∉ PRAYERS → sched !! k = None).
Proof.
  intros Hcfg Hr Hall.
  destruct (fetch_prayer_times_returns r timings w Hcfg Hr Hall)
    as (sched & (w' & Hrun & Hs & _ & Ht) & Hin & Hout).
  exists sched, w'. rewrite app_nil_r in Ht. done.
Qed.

Lemma example_config_complete : config_complete example_config.
Proof.
  intros k Hin.
  repeat (apply elem_of_cons in Hin as [-> | Hin]; [by eexists |]).
  by apply elem_of_nil in Hin.
Qed.

Lemma example_reply_good : good_reply example_reply example_timings.
Proof. by eexists _, _, _. Qed.

Lemma example_timings_well_formed : well_formed example_timings.
Proof.
  intros p Hin. unfold PRAYERS in Hin.
  repeat (apply elem_of_cons in Hin as [-> | Hin]; [by eexists |]).
  by apply elem_of_nil in Hin.
Qed.

Lemma well_formed_present times :
  well_formed times → ∀ p, p ∈ PRAYERS → ∃ v, getitem times p = inr v.
Proof.
  intros Hwf p Hp. destruct (Hwf p Hp) as [d (v & Hv & _)%time_of_Some]. eauto.
Qed.

Lemma fetch_prayer_times_picks_five_witness :
  ∃ sched,
    fst (fetch_prayer_times example_reply
           (example_machine (example_timer JNull ∅) (DateTime 739558 8 0 0 0)
              (DateTime 739558 8 0 0 1) no_faults)) = Ret (JObj sched) ∧
    sched !! "Maghrib" = Some (JStr "19:00") ∧ sched !! "Sunrise" = None.
Proof.
  destruct (fetch_prayer_times_picks_five example_reply example_timings
              (example_machine (example_timer JNull ∅) (DateTime 739558 8 0 0 0)
                 (DateTime 739558 8 0 0 1) no_faults))
    as (sched & w' & Hrun & _ & _ & Hin & Hout).
  - exact example_config_complete.
  - exact example_reply_good.
  - exact (well_formed_present _ example_timings_well_formed).
  - exists sched. split; [by rewrite Hrun |]. split.
    + specialize (Hin "Maghrib" ltac:(repeat constructor)).
      simpl in Hin. destruct (sched !! "Maghrib"); [| discriminate Hin].
      vm_compute in Hin. by injection Hin as ->.
    + apply Hout. intros Hin'. unfold PRAYERS in Hin'.
      repeat (apply elem_of_cons in Hin' as [Heq | Hin']; [discriminate Heq |]).
      by apply elem_of_nil in Hin'.
Defined.

Section quiet_loop.
Implicit Types (w : machine) (fuel : nat).

Lemma config_complete_ok cfg : config_complete cfg → config_ok cfg.
Proof.
  intros Hc k Hk. apply Hc.
  repeat (apply elem_of_cons in Hk as [-> | Hk]; [repeat constructor |]).
  by apply elem_of_nil in Hk.
Qed.

(** In a cooperative environment a turn of the loop returns, as long as
    the clock has not reached the last day a [datetime] can hold. *)
Lemma iteration_quiet w :
  quiet w → config_ok (config (self w)) → well_formed (prayer_times (self w)) →
  0 ≤ ordinal (clock w (ticks w)) < 3652059 →
  ∃ w', iteration w = (Ret (), w') ∧ faults w' = faults w.
Proof.
  intros Hq Hcfg Hwf Hday.
  assert (∃ name instant,
            fst (get_next_prayer w) = Ret (Some name, Some instant))
    as (name & instant & Hnext).
  { rewrite get_next_prayer_run. simpl.
    destruct (next_prayer_at_cases _ (clock w (ticks w)) Hwf)
      as [(i & name & d & _ & _ & _ & _ & ->) | (_ & d & _ & ->)].
    - by eexists _, _.
    - rewrite add_days_next by done. by eexists _, _. }
  destruct (time_remaining instant (clock w (S (ticks w))))
    as [[hours minutes] seconds] eqn:Hrem.
  rewrite (iteration_run w name instant hours minutes seconds Hq Hnext Hrem).
  set (w1 := Machine _ _ _ _ _ _).
  assert (quiet w1) as Hq1 by exact Hq.
  assert (self w1 = self w) as Hs1 by reflexivity.
  assert (faults w1 = faults w) as Hf1 by reflexivity.
  destruct (decide (hours * 60 + minutes = 0 ∧ seconds = 0)) as [[Hz ->] | Hnz].
  - rewrite time_remaining_parts in Hrem. cbv zeta in Hrem.
    injection Hrem as Hh Hm Hs.
    pose proof (decomposition_bounds
                  (int_total_seconds (dt_sub instant (clock w (S (ticks w))))))
      as (Hrange & _).
    rewrite Hm in Hrange.
    assert (hours = 0) as -> by lia. assert (minutes = 0) as -> by lia.
    destruct (current_prayer_announced (self w)) eqn:Hflag.
    + destruct (returns_after_deadline name (self w) w1 Hflag Hq1 Hs1)
        as (w2 & -> & _ & Hf2 & _).
      exists w2. split; [done | congruence].
    + destruct (returns_deadline name (self w) w1 Hcfg Hwf Hflag Hq1 Hs1)
        as (table & _ & (w2 & -> & _ & Hf2 & _)).
      exists w2. split; [done | congruence].
  - destruct (returns_before_deadline name hours minutes seconds (self w) w1
                Hnz Hq1 Hs1) as (t' & evs & (w2 & -> & _ & Hf2 & _) & _).
    exists w2. split; [done | congruence].
Qed.

(** In a cooperative environment the loop goes on: a turn returns, or
    its exception is logged and the loop continues after the pause. *)
Lemma loop_quiet fuel : ∀ w, quiet w → ∃ w', loop fuel w = (Ret Running, w').
Proof.
  induction fuel as [| fuel IH]; intros w Hq; simpl; [by eexists |].
  assert (handlers_complete w) as Hh by (intros k; repeat split; intros; apply Hq).
  destruct (run_iteration_outcome w Hh) as (c & w1 & Hrun & Hf & Hbreak).
  unfold bind. rewrite Hrun. destruct c.
  - apply IH. by eapply quiet_faults.
  - destruct (Hbreak eq_refl) as [(k & c & Hk) _]. by rewrite Hq in Hk.
Qed.
End quiet_loop.

(** X10.  Start-up and loop together.  When every outside call completes,
    the configuration holds the entries the program reads, and the service
    answers with code 200 and five times that read as [HH:MM], [run]
    neither raises nor leaves its loop, for any number of turns; and after
    any number of turns the timer still holds the configuration it started
    with and the five times of that one reply. *)
Theorem run_keeps_counting r timings w fuel :
  quiet w → config_complete (config (self w)) →
  good_reply r timings → well_formed timings →
  ∃ w', run r fuel w = (Ret Running, w') ∧
        config (self w') = config (self w) ∧
        ∀ p, p ∈ PRAYERS →
             getitem (prayer_times (self w')) p = getitem timings p.
Proof.
  intros Hq Hcfg Hr Hwf.
  destruct (returns_io (Print Title) w _ Hq eq_refl) as (w1 & E1 & Hs1 & Hf1 & _).
  assert (quiet w1) as Hq1 by still_quiet.
  destruct (returns_io (Print Rule) w1 _ Hq1 Hs1) as (w2 & E2 & Hs2 & Hf2 & _).
  destruct (fetch_prayer_times_returns r timings w2)
    as (sched & (w3 & E3 & Hs3 & Hf3 & _) & Hin & _);
    [by rewrite Hs2 | done | by apply well_formed_present |].
  set (t4 := Timer (config (self w3)) (JObj sched) (announced_intervals (self w3))
                   (current_prayer_announced (self w3))).
  set (w4 := Machine t4 (clock w3) (ticks w3) (faults w3) (calls w3) (trace w3)).
  assert (quiet w4) as Hq4.
  { apply (quiet_faults w); [| done]. simpl. congruence. }
  assert (config_complete (config t4)) as Hcfg4.
  { simpl. rewrite Hs3, Hs2. done. }
  assert (well_formed (prayer_times t4)) as Hwf4.
  { intros p Hp. unfold time_of. simpl prayer_times. rewrite (Hin p Hp).
    apply (Hwf p Hp). }
  destruct (returns_display_prayer_times t4 (config_complete_ok _ Hcfg4) Hwf4
              w4 Hq4 eq_refl) as (table & _ & (w5 & E5 & Hs5 & Hf5 & _)).
  assert (quiet w5) as Hq5 by still_quiet.
  destruct (returns_io (Print TimerStarted) w5 _ Hq5 Hs5)
    as (w6 & E6 & Hs6 & Hf6 & _).
  assert (quiet w6) as Hq6 by still_quiet.
  destruct (loop_quiet fuel w6 Hq6) as (w7 & E7).
  pose proof (keeps_loop fuel w6) as Hk. rewrite E7 in Hk.
  destruct Hk as (Hc7 & Hp7 & _).
  exists w7. split; [| split].
  - unfold run, print, bind. rewrite E1, E2, E3.
    unfold get_self, put_self. fold t4 w4. rewrite E5, E6. exact E7.
  - rewrite Hc7, Hs6. simpl. by rewrite Hs3, Hs2.
  - intros p Hp. rewrite Hp7, Hs6. simpl. by apply Hin.
Qed.

Lemma run_keeps_counting_witness :
  ∃ w',
    run example_reply 3
      (example_machine (example_timer JNull ∅) (DateTime 739558 8 0 0 0)
         (DateTime 739558 8 0 0 1) no_faults) = (Ret Running, w') ∧
    getitem (prayer_times (self w')) "Isha" = inr (JStr "20:30").
Proof.
  destruct (run_keeps_counting example_reply example_timings
              (example_machine (example_timer JNull ∅) (DateTime 739558 8 0 0 0)
                 (DateTime 739558 8 0 0 1) no_faults) 3)
    as (w' & Hrun & _ & Htimes).
  - intros k c. reflexivity.
  - exact example_config_complete.
  - exact example_reply_good.
  - exact example_timings_well_formed.
  - exists w'. split; [exact Hrun |].
    rewrite (Htimes "Isha"); [reflexivity | repeat constructor].
Defined.

(** X11.  A failed fetch stops the program at start-up.  When the request
    raises, the body is not JSON, or a field is missing on the way to the
    five timings, [run] prints its title, reports the error and raises
    [SystemExit(1)]: the schedule table is not printed and the loop is not
    entered, whatever number of turns was to follow. *)
Theorem run_stops_on_failed_fetch r e w fuel :
  quiet w → config_complete (config (self w)) → fetch_fails r e →
  ∃ w', run r fuel w = (Raise (SystemExit 1), w') ∧
        trace w' = trace w ++ [Print Title; Print Rule; Print (FetchFailed e)].
Proof.
  intros Hq Hcfg Hfail.
  destruct (returns_io (Print Title) w _ Hq eq_refl) as (w1 & E1 & Hs1 & Hf1 & Ht1).
  assert (quiet w1) as Hq1 by still_quiet.
  destruct (returns_io (Print Rule) w1 _ Hq1 Hs1) as (w2 & E2 & Hs2 & Hf2 & Ht2).
  assert (quiet w2) as Hq2 by still_quiet.
  destruct (Hcfg "latitude") as [lat Hlat]; [repeat constructor |].
  destruct (Hcfg "longitude") as [lon Hlon]; [repeat constructor |].
  destruct (Hcfg "method") as [meth Hmeth]; [repeat constructor |].
  rewrite <- Hs2 in Hlat, Hlon, Hmeth.
  destruct (fetch_prayer_times_raises r w2 lat lon meth e Hq2 Hlat Hlon Hmeth Hfail)
    as (w3 & E3 & Ht3).
  exists w3. split.
  - unfold run, print, bind. by rewrite E1, E2, E3.
  - rewrite Ht3, Ht2, Ht1. by rewrite <- !app_assoc.
Qed.

Lemma run_stops_on_failed_fetch_witness :
  ∃ w',
    run (RequestRaised (RequestError "timed out")) 3
      (example_machine (example_timer JNull ∅) (DateTime 739558 8 0 0 0)
         (DateTime 739558 8 0 0 1) no_faults) = (Raise (SystemExit 1), w') ∧
    trace w' = [Print Title; Print Rule;
                Print (FetchFailed (RequestError "timed out"))].
Proof.
  destruct (run_stops_on_failed_fetch (RequestRaised (RequestError "timed out"))
              (RequestError "timed out")
              (example_machine (example_timer JNull ∅) (DateTime 739558 8 0 0 0)
                 (DateTime 739558 8 0 0 1) no_faults) 3)
    as (w' & Hrun & Htrace).
  - intros k c. reflexivity.
  - exact example_config_complete.
  - left. reflexivity.
  - exists w'. split; [exact Hrun | exact Htrace].
Defined.

(** The loop body away from the deadline: the flag is put off, then
    [should_announce] decides whether the announcement is spoken. *)
Lemma countdown_step_away name hours minutes seconds w :
  quiet w → ¬ (hours * 60 + minutes = 0 ∧ seconds = 0) →
  let total_minutes := hours * 60 + minutes in
  let t1 := Timer (config (self w)) (prayer_times (self w))
                  (announced_intervals (self w)) false in
  ∃ w', countdown_step name hours minutes seconds w = (Ret (), w') ∧
        self w' = snd (should_announce total_minutes t1) ∧
        trace w' = trace w ++
          (if fst (should_announce total_minutes t1)
           then [Print (Announcement (announcement total_minutes name))]
           else []) ++ [Sleep 1].
Proof.
  intros Hq Hnz total_minutes t1. unfold countdown_step. fold total_minutes.
  replace (bool_decide (total_minutes = 0) && bool_decide (seconds = 0)) with false.
  2:{ symmetry. apply andb_false_iff.
      destruct (decide (total_minutes = 0)) as [Hz |].
      - right. apply bool_decide_eq_false_2. tauto.
      - left. by apply bool_decide_eq_false_2. }
  unfold bind at 1, method at 1. cbn [clear_announced_flag self].
  unfold bind at 1, method at 1. cbn [self]. fold t1.
  destruct (should_announce total_minutes t1) as [[] t2];
    unfold text_to_speech, print, sleep, bind, ret.
  - rewrite io_completes by (simpl; apply Hq).
    rewrite io_completes by (simpl; apply Hq).
    eexists. split; [done |]. simpl. split; [done |]. by rewrite <- app_assoc.
  - rewrite io_completes by (simpl; apply Hq).
    eexists. split; [done |]. done.
Qed.

(** X12.  A turn of the loop away from the deadline, every outside call
    completing.  With [total_minutes = hours * 60 + minutes]: if that value
    is a ladder value or a minute from 1 to 19 and has not been announced
    in this cycle, the turn shows the countdown, speaks the announcement
    for exactly that value, sleeps one second and records the value; in
    every other case it only shows the countdown and sleeps one second,
    and the announced thresholds are as before.  Either way the deadline
    flag ends off. *)
Theorem threshold_turn w name instant hours minutes seconds :
  quiet w →
  fst (get_next_prayer w) = Ret (Some name, Some instant) →
  time_remaining instant (clock w (S (ticks w))) = (hours, minutes, seconds) →
  hours * 3600 + minutes * 60 + seconds ≠ 0 →
  let total_minutes := hours * 60 + minutes in
  let shown := Print (Countdown name instant
                        (format_time_remaining hours minutes seconds)) in
  let t := self w in
  let w' := snd (iteration w) in
  fst (iteration w) = Ret () ∧
  (eligible total_minutes → total_minutes ∉ announced_intervals t →
   trace w' = trace w ++
     [shown; Print (Announcement (announcement total_minutes name)); Sleep 1] ∧
   self w' = Timer (config t) (prayer_times t)
                   ({[total_minutes]} ∪ announced_intervals t) false) ∧
  (¬ eligible total_minutes ∨ total_minutes ∈ announced_intervals t →
   trace w' = trace w ++ [shown; Sleep 1] ∧
   self w' = Timer (config t) (prayer_times t) (announced_intervals t) false).
Proof.
  intros Hq Hnext Hrem Hnz total_minutes shown t w'. subst w'.
  rewrite (iteration_run w name instant hours minutes seconds Hq Hnext Hrem).
  fold shown. set (w1 := Machine _ _ _ _ _ _).
  destruct (countdown_step_away name hours minutes seconds w1)
    as (w2 & -> & Hs2 & Ht2); [exact Hq | lia |].
  cbn [fst snd]. fold total_minutes in Hs2, Ht2. cbn [self trace w1] in Hs2, Ht2.
  fold t in Hs2, Ht2.
  set (t1 := Timer (config t) (prayer_times t) (announced_intervals t) false)
    in Hs2, Ht2.
  split; [done |]. split.
  - intros He Hfresh.
    rewrite (should_announce_fresh total_minutes t1 He Hfresh) in Hs2, Ht2.
    split; [by rewrite Ht2, <- app_assoc | done].
  - intros Hno.
    assert (should_announce total_minutes t1 = (false, t1)) as Hquiet.
    { destruct Hno as [Hne | Hin];
        [by apply should_announce_ineligible | by apply should_announce_fired]. }
    rewrite Hquiet in Hs2, Ht2.
    split; [by rewrite Ht2, <- app_assoc | done].
Qed.

Lemma threshold_turn_witness :
  let w := example_machine (example_timer example_times {[45]})
             (DateTime 739558 18 29 59 500000) (DateTime 739558 18 29 59 600000)
             no_faults in
  trace (snd (iteration w)) =
    [Print (Countdown "Maghrib" (DateTime 739558 19 0 0 0) (FmtMS 30 0));
     Print (Announcement (MinutesUntil 30 "Maghrib")); Sleep 1] ∧
  announced_intervals (self (snd (iteration w))) = {[30; 45]}.
Proof.
  intros w.
  destruct (threshold_turn w "Maghrib" (DateTime 739558 19 0 0 0) 0 30 0)
    as (_ & Hfire & _).
  - intros k c. reflexivity.
  - vm_compute. reflexivity.
  - vm_compute. reflexivity.
  - lia.
  - destruct Hfire as [Htrace Hself].
    + left. repeat constructor.
    + vm_compute. intros Hin. discriminate Hin.
    + split; [exact Htrace |]. rewrite Hself. reflexivity.
Defined.

Section table.
Implicit Types (w : machine) (t : PrayerTimer).

(** The rows printed for [prayers]: one per prayer, in order, with the
    value the schedule holds. *)
Lemma display_rows_table prayers t :
  (∀ p, p ∈ prayers → ∃ v, getitem (prayer_times t) p = inr v) →
  ∃ rows,
    Forall2 (λ p c, ∃ v, getitem (prayer_times t) p = inr v ∧
                         c = Print (TableRow p v)) prayers rows ∧
    ∀ w, quiet w → self w = t → returns (display_rows prayers) w () t rows.
Proof.
  induction prayers as [| p ps IH]; intros Hrows; simpl.
  - exists []. split; [constructor |]. intros w _ Hs. by apply returns_ret.
  - destruct (Hrows p) as [v Hv]; [constructor |].
    destruct IH as (rows & Hall & Hret).
    { intros q Hin. apply Hrows. by constructor. }
    exists ([] ++ [] ++ [Print (TableRow p v)] ++ rows). split.
    + simpl. constructor; [by exists v | done].
    + intros w Hq Hs. run_with ltac:(exact Hv).
      apply Hret; [still_quiet | congruence].
Qed.

(** The rows printed before the first entry that cannot be read. *)
Lemma display_rows_stops pre p post t e :
  (∀ q, q ∈ pre → ∃ v, getitem (prayer_times t) q = inr v) →
  getitem (prayer_times t) p = inl e →
  ∃ rows,
    Forall2 (λ q c, ∃ v, getitem (prayer_times t) q = inr v ∧
                         c = Print (TableRow q v)) pre rows ∧
    ∀ w, quiet w → self w = t →
      ∃ w', display_rows (pre ++ p :: post) w = (Raise (Exception e), w') ∧
            self w' = t ∧ trace w' = trace w ++ rows.
Proof.
  induction pre as [| q pre IH]; intros Hpre He.
  - exists []. split; [constructor |]. intros w Hq Hs. exists w.
    simpl. unfold bind, get_self. rewrite Hs, He. simpl.
    by rewrite app_nil_r.
  - destruct (Hpre q) as [v Hv]; [constructor |].
    destruct IH as (rows & Hall & Hstop); [| done |].
    { intros q' Hin. apply Hpre. by constructor. }
    exists (Print (TableRow q v) :: rows). split.
    + constructor; [by exists v | done].
    + intros w Hq Hs.
      destruct (returns_io (Print (TableRow q v)) w t Hq Hs)
        as (w1 & E1 & Hs1 & Hf1 & Ht1).
      destruct (Hstop w1) as (w2 & E2 & Hs2 & Ht2); [still_quiet | done |].
      exists w2. split; [| split; [done |]].
      * simpl. unfold bind at 1, get_self. rewrite Hs.
        unfold bind at 1. rewrite Hv. unfold lift, ret.
        unfold bind at 1, print. by rewrite E1.
      * rewrite Ht2, Ht1. by rewrite <- app_assoc.
Qed.
End table.

(** X13.  With a console that can be written to, a configuration holding
    city and country, and a schedule holding the five prayers,
    [display_prayer_times] prints the ruled header with today's date and
    the location, then one row per prayer in the canonical order, each with
    the value the schedule holds for it, then the closing rule; the timer
    is untouched. *)
Theorem display_prayer_times_table w :
  quiet w → config_ok (config (self w)) →
  (∀ p, p ∈ PRAYERS → ∃ v, getitem (prayer_times (self w)) p = inr v) →
  ∃ w' cty ctr rows,
    display_prayer_times w = (Ret (), w') ∧ self w' = self w ∧
    getitem (config (self w)) "city" = inr cty ∧
    getitem (config (self w)) "country" = inr ctr ∧
    trace w' = trace w ++
      [Print RuleAfterBlank; Print (TableTitle (clock w (ticks w)));
       Print (TableLocation cty ctr); Print Rule]
      ++ rows ++ [Print RuleThenBlank] ∧
    Forall2 (λ p c, ∃ v, getitem (prayer_times (self w)) p = inr v ∧
                         c = Print (TableRow p v)) PRAYERS rows.
Proof.
  intros Hq Hcfg Hpresent.
  destruct (Hcfg "city") as [cty Hcty]; [repeat constructor |].
  destruct (Hcfg "country") as [ctr Hctr]; [repeat constructor |].
  destruct (display_rows_table PRAYERS (self w) Hpresent) as (rows & Hall & Hrows).
  assert (∀ t, self w = t →
            getitem (config t) "city" = inr cty →
            getitem (config t) "country" = inr ctr →
            (∀ w0, quiet w0 → self w0 = t →
                   returns (display_rows PRAYERS) w0 () t rows) →
            returns display_prayer_times w () t
              ([] ++ [Print RuleAfterBlank]
               ++ [Print (TableTitle (clock w (ticks w)))]
               ++ [] ++ [] ++ [] ++ [Print (TableLocation cty ctr)]
               ++ [Print Rule] ++ rows ++ [Print RuleThenBlank])) as Hgen.
  { intros t Hs Hc1 Hc2 Hr. unfold display_prayer_times.
    run_with ltac:(first [exact Hc1 | exact Hc2]).
    apply Hr; [still_quiet | done]. }
  destruct (Hgen (self w) eq_refl Hcty Hctr Hrows) as (w' & Hrun & Hs & _ & Ht).
  exists w', cty, ctr, rows. done.
Qed.

Lemma display_prayer_times_table_witness :
  let w := example_machine (example_timer example_times ∅)
             (DateTime 739558 8 0 0 0) (DateTime 739558 8 0 0 1) no_faults in
  ∃ w' rows,
    display_prayer_times w = (Ret (), w') ∧
    trace w' =
      [Print RuleAfterBlank; Print (TableTitle (DateTime 739558 8 0 0 0));
       Print (TableLocation (JStr "Mecca") (JStr "Saudi Arabia")); Print Rule]
      ++ rows ++ [Print RuleThenBlank] ∧
    length rows = 5%nat.
Proof.
  intros w.
  destruct (display_prayer_times_table w)
    as (w' & cty & ctr & rows & Hrun & _ & Hcty & Hctr & Htrace & Hrows).
  - intros k c. reflexivity.
  - exact example_config_ok.
  - exact (well_formed_present _ example_times_well_formed).
  - exists w', rows. split; [exact Hrun |]. split.
    + vm_compute in Hcty. vm_compute in Hctr.
      injection Hcty as <-. injection Hctr as <-. exact Htrace.
    + by rewrite <- (Forall2_length _ _ _ Hrows).
Defined.

(** X14.  When the schedule lacks a prayer's entry, or is not a dictionary
    at all (the [None] that a refused fetch leaves), [display_prayer_times]
    prints the header and the rows of the prayers before the first one it
    cannot read, then raises the lookup's error; the closing rule is not
    printed. *)
Theorem display_prayer_times_stops w (i : nat) p e :
  quiet w → config_ok (config (self w)) →
  PRAYERS !! i = Some p →
  (∀ (j : nat) q, (j < i)%nat → PRAYERS !! j = Some q →
     ∃ v, getitem (prayer_times (self w)) q = inr v) →
  getitem (prayer_times (self w)) p = inl e →
  ∃ w' cty ctr rows,
    display_prayer_times w = (Raise (Exception e), w') ∧ self w' = self w ∧
    getitem (config (self w)) "city" = inr cty ∧
    getitem (config (self w)) "country" = inr ctr ∧
    trace w' = trace w ++
      [Print RuleAfterBlank; Print (TableTitle (clock w (ticks w)));
       Print (TableLocation cty ctr); Print Rule] ++ rows ∧
    Forall2 (λ q c, ∃ v, getitem (prayer_times (self w)) q = inr v ∧
                         c = Print (TableRow q v)) (take i PRAYERS) rows.
Proof.
  intros Hq Hcfg Hi Hbefore He.
  destruct (Hcfg "city") as [cty Hcty]; [repeat constructor |].
  destruct (Hcfg "country") as [ctr Hctr]; [repeat constructor |].
  destruct (display_rows_stops (take i PRAYERS) p (drop (S i) PRAYERS)
              (self w) e) as (rows & Hall & Hstop); [| done |].
  { intros q Hq'. apply list_elem_of_lookup_1 in Hq' as [j Hj].
    pose proof (lookup_lt_Some _ _ _ Hj) as Hlen. rewrite length_take in Hlen.
    rewrite lookup_take_lt in Hj by lia. apply (Hbefore j q); [lia | done]. }
  rewrite (take_drop_middle PRAYERS i p Hi) in Hstop.
  set (w1 := Machine (self w) (clock w) (S (ticks w)) (faults w) (calls w) (trace w)).
  assert (quiet w1) as Hq1 by exact Hq.
  assert (trace w1 = trace w) as Ht1 by reflexivity.
  destruct (returns_io (Print RuleAfterBlank) w1 (self w) Hq1 eq_refl)
    as (w2 & E2 & Hs2 & Hf2 & Ht2).
  assert (quiet w2) as Hq2 by still_quiet.
  destruct (returns_io (Print (TableTitle (clock w (ticks w)))) w2 _ Hq2 Hs2)
    as (w3 & E3 & Hs3 & Hf3 & Ht3).
  assert (quiet w3) as Hq3 by still_quiet.
  destruct (returns_io (Print (TableLocation cty ctr)) w3 _ Hq3 Hs3)
    as (w4 & E4 & Hs4 & Hf4 & Ht4).
  assert (quiet w4) as Hq4 by still_quiet.
  destruct (returns_io (Print Rule) w4 _ Hq4 Hs4) as (w5 & E5 & Hs5 & Hf5 & Ht5).
  assert (quiet w5) as Hq5 by still_quiet.
  destruct (Hstop w5 Hq5 Hs5) as (w6 & E6 & Hs6 & Ht6).
  exists w6, cty, ctr, rows.
  split; [| split; [done | split; [done | split; [done | split; [| done]]]]].
  - unfold display_prayer_times.
    unfold bind at 1, datetime_now. fold w1.
    unfold bind at 1, print at 1. rewrite E2.
    unfold bind at 1, print at 1. rewrite E3.
    unfold bind at 1, get_self. rewrite Hs3.
    unfold bind at 1. rewrite Hcty. unfold lift at 1, ret.
    unfold bind at 1. rewrite Hctr. unfold lift at 1, ret.
    unfold bind at 1, print at 1. rewrite E4.
    unfold bind at 1, print at 1. rewrite E5.
    unfold bind at 1. by rewrite E6.
  - rewrite Ht6, Ht5, Ht4, Ht3, Ht2, Ht1. by rewrite <- !app_assoc.
Qed.

Lemma display_prayer_times_stops_witness :
  let w := example_machine (example_timer JNull ∅)
             (DateTime 739558 8 0 0 0) (DateTime 739558 8 0 0 1) no_faults in
  ∃ w',
    display_prayer_times w = (Raise (Exception TypeError), w') ∧
    trace w' =
      [Print RuleAfterBlank; Print (TableTitle (DateTime 739558 8 0 0 0));
       Print (TableLocation (JStr "Mecca") (JStr "Saudi Arabia")); Print Rule].
Proof.
  intros w.
  destruct (display_prayer_times_stops w 0%nat "Fajr" TypeError)
    as (w' & cty & ctr & rows & Hrun & _ & Hcty & Hctr & Htrace & Hrows).
  - intros k c. reflexivity.
  - exact example_config_ok.
  - reflexivity.
  - intros j q Hj. lia.
  - reflexivity.
  - exists w'. split; [exact Hrun |].
    apply Forall2_nil_inv_l in Hrows as ->. rewrite Htrace.
    vm_compute in Hcty. vm_compute in Hctr.
    injection Hcty as <-. injection Hctr as <-. reflexivity.
Defined.

(** X15.  When the geolocation service answers with status ['success'] and
    the four fields, [detect_location] returns exactly the values sent, as
    they are (they are not checked to be numbers or in range), prints
    nothing and leaves the process as it was; this holds whatever the state
    of the console. *)
Theorem detect_location_passes_reply data status lat lon cty ctr w :
  getitem data "status" = inr status → py_eq_str status "success" = true →
  getitem data "lat" = inr lat → getitem data "lon" = inr lon →
  getitem data "city" = inr cty → getitem data "country" = inr ctr →
  detect_location (BodyJson data) w = (Ret (Location lat lon cty ctr), w).
Proof.
  intros Hst Hok Hlat Hlon Hcty Hctr.
  unfold detect_location, try_except, locate, request_json, lift, bind, ret.
  rewrite Hst. cbn beta iota. rewrite Hok, Hlat. cbn beta iota.
  rewrite Hlon. cbn beta iota. rewrite Hcty. cbn beta iota. by rewrite Hctr.
Qed.

Lemma detect_location_passes_reply_witness :
  let data := JObj (<["status" := JStr "success"]> (<["lat" := JStr "north"]>
                   (<["lon" := JInt 500]> (<["city" := JNull]>
                   (<["country" := JStr "Nowhere"]> ∅))))) in
  fst (detect_location (BodyJson data)
         (example_machine (example_timer JNull ∅) (DateTime 739558 8 0 0 0)
            (DateTime 739558 8 0 0 1) broken_console))
  = Ret (Location (JStr "north") (JInt 500) JNull (JStr "Nowhere")).
Proof.
  intros data.
  rewrite (detect_location_passes_reply data (JStr "success") (JStr "north")
             (JInt 500) JNull (JStr "Nowhere")); reflexivity.
Defined.

Section counting.
Implicit Types (m : Z) (t : PrayerTimer) (ms : list Z).

Lemma eligible_elem_of m : eligible m ↔ m ∈ eligible_set.
Proof.
  unfold eligible, eligible_set.
  rewrite elem_of_list_to_set, elem_of_app, elem_of_seqZ.
  split; (intros [? | ?]; [by left | right; lia]).
Qed.

Lemma eligible_set_size : size eligible_set = 26%nat.
Proof. by vm_compute. Qed.

(** Each [True] answer adds one eligible value to the announced set. *)
Lemma announce_all_count ms : ∀ t,
  (length (filter (eq true) (fst (announce_all ms t)))
   + size (announced_intervals t ∩ eligible_set))%nat
  = size (announced_intervals (snd (announce_all ms t)) ∩ eligible_set).
Proof.
  induction ms as [| m ms IH]; intros t; [done |].
  rewrite announce_all_cons. cbn [fst snd].
  destruct (decide (eligible m ∧ m ∉ announced_intervals t)) as [[He Hfresh] | Hno].
  - rewrite (should_announce_fresh m t He Hfresh). cbn [fst snd].
    rewrite filter_cons_True by done. rewrite <- IH. cbn [length announced_intervals].
    assert (({[m]} ∪ announced_intervals t) ∩ eligible_set
            = {[m]} ∪ (announced_intervals t ∩ eligible_set)) as ->.
    { apply eligible_elem_of in He. apply set_eq. intros x.
      rewrite !elem_of_intersection, !elem_of_union, elem_of_intersection,
        elem_of_singleton.
      split; [intros [[-> | ?] ?]; auto | intros [-> | [? ?]]; auto]. }
    pose proof (size_union ({[m]} : gset Z)
                  (announced_intervals t ∩ eligible_set)) as Hsize.
    rewrite Hsize.
    + rewrite size_singleton. lia.
    + apply elem_of_disjoint.
      by intros x ->%elem_of_singleton [? _]%elem_of_intersection.
  - assert (should_announce m t = (false, t)) as ->.
    { destruct (decide (eligible m)) as [He |];
        [| by apply should_announce_ineligible].
      apply should_announce_fired.
      destruct (decide (m ∈ announced_intervals t)); [done | by destruct Hno]. }
    cbn [fst snd]. rewrite filter_cons_False by done. apply IH.
Qed.
End counting.

(** X16.  However many calls are made and with whatever arguments, and
    whatever had been announced before, [should_announce] answers [True] at
    most 26 times between two resets: once for each of the seven ladder
    values and the nineteen minutes 1 to 19. *)
Theorem should_announce_at_most_26 ms t :
  (length (filter (eq true) (fst (announce_all ms t))) ≤ 26)%nat.
Proof.
  pose proof (announce_all_count ms t) as Hcount.
  pose proof (subseteq_size
    (announced_intervals (snd (announce_all ms t)) ∩ eligible_set) eligible_set
    (intersection_subseteq_r _ _)) as Hle.
  rewrite eligible_set_size in Hle. lia.
Qed.

(** X17.  The deadline turn when the configuration has no readable
    ['azan_file'] entry (the loaded file is never validated): the banner is
    printed, then [play_azan] raises the lookup's error before any
    playback; the loop logs it, sleeps five seconds and goes on, and the
    timer is exactly as before: the deadline flag is still off and the
    announced thresholds have not been cleared. *)
Theorem deadline_without_azan_file w name instant e :
  quiet w →
  getitem (config (self w)) "azan_file" = inl e →
  fst (get_next_prayer w) = Ret (Some name, Some instant) →
  time_remaining instant (clock w (S (ticks w))) = (0, 0, 0) →
  current_prayer_announced (self w) = false →
  ∃ w', run_iteration w = (Ret Continue, w') ∧ self w' = self w ∧
        trace w' = trace w ++
          [Print (Countdown name instant (FmtS 0)); Print BannerTop;
           Print (ItsTime name); Print RuleThenBlank;
           Print (LoopError e); Sleep 5].
Proof.
  intros Hq Hmiss Hnext Hrem Hflag.
  pose proof (iteration_run w name instant 0 0 0 Hq Hnext Hrem) as Hit.
  change (format_time_remaining 0 0 0) with (FmtS 0) in Hit.
  set (w1 := Machine _ _ _ _ _ _) in Hit.
  assert (quiet w1) as Hq1 by exact Hq.
  destruct (returns_io (Print BannerTop) w1 (self w) Hq1 eq_refl)
    as (w2 & E2 & Hs2 & Hf2 & Ht2).
  assert (quiet w2) as Hq2 by still_quiet.
  destruct (returns_io (Print (ItsTime name)) w2 _ Hq2 Hs2)
    as (w3 & E3 & Hs3 & Hf3 & Ht3).
  assert (quiet w3) as Hq3 by still_quiet.
  destruct (returns_io (Print RuleThenBlank) w3 _ Hq3 Hs3)
    as (w4 & E4 & Hs4 & Hf4 & Ht4).
  assert (quiet w4) as Hq4 by still_quiet.
  assert (iteration w = (Raise (Exception e), w4)) as Hraise.
  { rewrite Hit. unfold countdown_step. simpl.
    unfold bind at 1, get_self. simpl. rewrite Hflag. simpl.
    unfold print, bind at 1. rewrite E2.
    unfold bind at 1. rewrite E3. unfold bind at 1. rewrite E4.
    unfold bind at 1, play_azan, bind at 1, get_self.
    unfold bind at 1. by rewrite Hs4, Hmiss. }
  destruct (returns_io (Print (LoopError e)) w4 _ Hq4 Hs4)
    as (w5 & E5 & Hs5 & Hf5 & Ht5).
  assert (quiet w5) as Hq5 by still_quiet.
  destruct (returns_io (Sleep 5) w5 _ Hq5 Hs5) as (w6 & E6 & Hs6 & Hf6 & Ht6).
  exists w6. split; [| split; [done |]].
  - unfold run_iteration. rewrite Hraise. unfold print, sleep, bind.
    by rewrite E5, E6.
  - rewrite Ht6, Ht5, Ht4, Ht3, Ht2. subst w1. simpl. by rewrite <- !app_assoc.
Qed.

Lemma deadline_without_azan_file_witness :
  let w := example_machine (Timer bare_config example_times {[30; 5; 1]} false)
             (DateTime 739558 18 59 59 500000) (DateTime 739558 18 59 59 600000)
             no_faults in
  ∃ w', run_iteration w = (Ret Continue, w') ∧
        current_prayer_announced (self w') = false ∧
        announced_intervals (self w') = {[30; 5; 1]}.
Proof.
  intros w.
  destruct (deadline_without_azan_file w "Maghrib" (DateTime 739558 19 0 0 0)
              (KeyError "azan_file")) as (w' & Hrun & Hself & _).
  - intros k c. reflexivity.
  - reflexivity.
  - vm_compute. reflexivity.
  - vm_compute. reflexivity.
  - reflexivity.
  - exists w'. split; [exact Hrun |]. rewrite Hself. split; reflexivity.
Defined.

(** X18.  [fetch_prayer_times] reads latitude, longitude and method from
    the configuration before its [try]: when one of them cannot be read,
    the lookup's error leaves the function as it is, whatever the service
    would have answered; no request is made, nothing is reported and
    [sys.exit] is not reached. *)
Theorem fetch_prayer_times_needs_config r w e :
  (getitem (config (self w)) "latitude" = inl e ∨
   (∃ lat, getitem (config (self w)) "latitude" = inr lat) ∧
   (getitem (config (self w)) "longitude" = inl e ∨
    (∃ lon, getitem (config (self w)) "longitude" = inr lon) ∧
    getitem (config (self w)) "method" = inl e)) →
  fetch_prayer_times r w = (Raise (Exception e), w).
Proof.
  intros Hcfg. unfold fetch_prayer_times, bind at 1 2, get_self, ret.
  unfold bind at 1.
  destruct Hcfg as [-> | [[lat ->] Hcfg]]; [done |]. unfold lift at 1, ret.
  unfold bind at 1.
  destruct Hcfg as [-> | [[lon ->] ->]]; [done |]. unfold lift at 1, ret.
  by unfold bind at 1.
Qed.

Lemma fetch_prayer_times_needs_config_witness :
  let w := example_machine
             (Timer (JObj (<["latitude" := JFloat (Q2Qc 21.4225%Q)]> ∅)) JNull ∅ false)
             (DateTime 739558 8 0 0 0) (DateTime 739558 8 0 0 1) no_faults in
  fetch_prayer_times example_reply w = (Raise (Exception (KeyError "longitude")), w).
Proof.
  intros w. apply fetch_prayer_times_needs_config.
  right. split; [by eexists |]. left. reflexivity.
Defined.
